(** * BenchSpotter: the bench search service ([src/services/api.js])

    A shallow embedding of [benchService.search] and of the utility
    functions [calculateDistance] and [toRadians], with the properties the
    specification states about them.

    Modelling conventions.
    - A JavaScript Number is a real number ([R]): [Math.sin], [Math.cos],
      [Math.sqrt] and [Math.PI] are the Standard Library's [sin], [cos],
      [sqrt] and [PI], and [Math.atan2] is the two-argument arctangent
      defined below.  Rounding of binary64 arithmetic is not modelled.
    - Integer columns of the database ([view_rating], [comfort_rating]) are
      [Z]; [created_at] is the instant, in milliseconds, that
      [new Date(created_at)] denotes.
    - [undefined] and [null] are both [None] wherever the code only tests a
      value for truthiness; [maxDistance], whose default value makes the two
      differ, has a type of its own.
    - The backend ([supabase]) is a table of rows together with the two
      server-side predicates the query uses ([ilike] and [eq]); it answers
      without error and keeps the rows in table order. *)

From Stdlib Require Import Reals Lra Lia List ZArith String Ascii Bool.
From Stdlib Require Import Permutation Sorted Machin.
Import ListNotations.
Open Scope R_scope.

(** ** Numbers *)

Definition Rleb (x y : R) : bool := if Rle_dec x y then true else false.

(** [Math.atan2(y, x)]: the angle of the point [(x, y)], in (-PI, PI]. *)
Definition Math_atan2 (y x : R) : R :=
  if Rlt_dec 0 x then atan (y / x)
  else if Rlt_dec x 0 then
         if Rle_dec 0 y then atan (y / x) + PI else atan (y / x) - PI
       else if Rlt_dec 0 y then PI / 2
       else if Rlt_dec y 0 then - (PI / 2)
       else 0.

(** ** Utility functions (api.js, lines 1438-1455) *)

Definition toRadians (degrees : R) : R := degrees * (PI / 180).

Definition calculateDistance (lat1 lon1 lat2 lon2 : R) : R :=
  let R_km := 6371 in
  let dLat := toRadians (lat2 - lat1) in
  let dLon := toRadians (lon2 - lon1) in
  let a :=
    sin (dLat / 2) * sin (dLat / 2) +
    cos (toRadians lat1) * cos (toRadians lat2) *
    sin (dLon / 2) * sin (dLon / 2) in
  let c := 2 * Math_atan2 (sqrt a) (sqrt (1 - a)) in
  R_km * c.

(** ** Strings: [String.prototype.trim] and the backend's [ILIKE] *)

Definition is_whitespace (c : ascii) : bool :=
  let n := nat_of_ascii c in
  (((9 <=? n) && (n <=? 13)) || (n =? 32))%nat.

Fixpoint trimStart (s : string) : string :=
  match s with
  | EmptyString => EmptyString
  | String c s' => if is_whitespace c then trimStart s' else s
  end.

Fixpoint trimEnd (s : string) : string :=
  match s with
  | EmptyString => EmptyString
  | String c s' =>
      match trimEnd s' with
      | EmptyString => if is_whitespace c then EmptyString else String c EmptyString
      | t => String c t
      end
  end.

Definition trim (s : string) : string := trimEnd (trimStart s).

Definition lower (c : ascii) : ascii :=
  let n := nat_of_ascii c in
  if ((65 <=? n) && (n <=? 90))%nat then ascii_of_nat (n + 32) else c.

(** SQL [LIKE] with [%] (any run of characters) and [_] (any one
    character), letters compared without case. *)
Fixpoint like (pattern s : string) {struct pattern} : bool :=
  match pattern with
  | EmptyString => match s with EmptyString => true | String _ _ => false end
  | String c pattern' =>
      if Ascii.eqb c "%" then
        (fix any (t : string) : bool :=
           like pattern' t ||
           match t with EmptyString => false | String _ t' => any t' end) s
      else
        match s with
        | EmptyString => false
        | String d s' =>
            (Ascii.eqb c "_" || Ascii.eqb (lower c) (lower d)) && like pattern' s'
        end
  end.

Definition ilike (column pattern : string) : bool := like pattern column.

(** ** Data *)

(** A row of [bench_ratings]. *)
Record rating := mkRating {
  view_rating : Z;
  comfort_rating : Z
}.

(** A row of [benches] with its joined [bench_ratings] (which the code
    guards against being null).  Columns the search never reads are left
    out; the object spread carries them along unchanged. *)
Record bench := mkBench {
  id : string;
  title : string;
  view_type : string;
  latitude : R;
  longitude : R;
  created_at : Z;
  bench_ratings : option (list rating)
}.

Record location := mkLocation {
  loc_latitude : R;
  loc_longitude : R
}.

(** The object [search] returns for each bench:
    [{ ...bench, avgRating, distance, ratingsCount }]. *)
Record processedBench := mkProcessed {
  bench_of : bench;
  avgRating : R;
  distance : option R;
  ratingsCount : nat
}.

(** The [maxDistance] argument: left out ([undefined], so the default
    value applies), [null], or a number of kilometres. *)
Inductive maxDistanceArg : Type :=
| MaxOmitted
| MaxNull
| MaxKm (km : R).

(** The argument object of [search]. *)
Record searchParams := mkParams {
  query : option string;
  viewType : option string;
  ratingFilter : option R;
  sortBy : option string;
  userLocation : option location;
  maxDistance : maxDistanceArg
}.

Definition set_sortBy (s : option string) (p : searchParams) : searchParams :=
  mkParams (query p) (viewType p) (ratingFilter p) s (userLocation p) (maxDistance p).

Definition set_maxDistance (m : maxDistanceArg) (p : searchParams) : searchParams :=
  mkParams (query p) (viewType p) (ratingFilter p) (sortBy p) (userLocation p) m.

Definition set_ratingFilter (r : option R) (p : searchParams) : searchParams :=
  mkParams (query p) (viewType p) r (sortBy p) (userLocation p) (maxDistance p).

Definition set_userLocation (u : option location) (p : searchParams) : searchParams :=
  mkParams (query p) (viewType p) (ratingFilter p) (sortBy p) u (maxDistance p).

(** ** [Array.prototype.sort]

    The language requires the sort to be stable; which algorithm runs is
    left to the engine.  The model is the stable insertion sort: an element
    moves behind another one only when [comparefn] says it is greater. *)
Section ArraySort.
Context {A : Type}.
Variable comparefn : A -> A -> R.

Fixpoint sort_insert (x : A) (l : list A) : list A :=
  match l with
  | [] => [x]
  | y :: l' =>
      if Rlt_dec 0 (comparefn x y) then y :: sort_insert x l' else x :: y :: l'
  end.

Definition Array_sort (l : list A) : list A := fold_right sort_insert [] l.
End ArraySort.

(** ** [benchService.search] (api.js, lines 99-177) *)

(** [maxDistance = 10] in the parameter list: the default replaces
    [undefined] only. *)
Definition effectiveMaxDistance (m : maxDistanceArg) : option R :=
  match m with
  | MaxOmitted => Some 10
  | MaxNull => None
  | MaxKm km => Some km
  end.

(** [if (query?.trim())]: the pattern sent to the backend, if any. *)
Definition titlePattern (q : option string) : option string :=
  match q with
  | None => None
  | Some s =>
      match trim s with
      | EmptyString => None
      | t => Some ("%" ++ t ++ "%")%string
      end
  end.

(** [if (viewType)]: the empty string is falsy. *)
Definition viewTypeFilter (v : option string) : option string :=
  match v with
  | Some EmptyString => None
  | other => other
  end.

(** The backend's answer to the query the code builds. *)
Definition supabase_select (table : list bench)
    (pattern : option string) (vt : option string) : list bench :=
  let rows :=
    match pattern with
    | Some pat => filter (fun b => ilike (title b) pat) table
    | None => table
    end in
  match vt with
  | Some v => filter (fun b => String.eqb (view_type b) v) rows
  | None => rows
  end.

(** The callback of [benches.map] (lines 129-155). *)
Definition processBench (userLocation : option location) (b : bench) : processedBench :=
  let ratings := match bench_ratings b with Some rs => rs | None => [] end in
  let avgRating :=
    if (0 <? List.length ratings)%nat then
      let totalView := fold_left (fun sum r => (sum + view_rating r)%Z) ratings 0%Z in
      let totalComfort := fold_left (fun sum r => (sum + comfort_rating r)%Z) ratings 0%Z in
      IZR (totalView + totalComfort) / IZR (Z.of_nat (List.length ratings) * 2)
    else 0 in
  let distance :=
    match userLocation with
    | Some u =>
        Some (calculateDistance (loc_latitude u) (loc_longitude u)
                                (latitude b) (longitude b))
    | None => None
    end in
  mkProcessed b avgRating distance (List.length ratings).

(** Lines 157-160: the distance filter. *)
Definition withinDistance (maxKm : R) (b : processedBench) : bool :=
  match distance b with
  | Some d => Rleb d maxKm
  | None => false
  end.

Definition distanceFilter (userLocation : option location) (maxDistance : option R)
    (l : list processedBench) : list processedBench :=
  match userLocation, maxDistance with
  | Some _, Some maxKm => filter (withinDistance maxKm) l
  | _, _ => l
  end.

(** Lines 162-165: the rating filter; [0] is falsy. *)
Definition applyRatingFilter (ratingFilter : option R)
    (l : list processedBench) : list processedBench :=
  match ratingFilter with
  | Some r =>
      if Req_dec_T r 0 then l
      else filter (fun b => Rleb r (avgRating b)) l
  | None => l
  end.

(** [null - x]: a null distance counts as [0] in arithmetic. *)
Definition toNumber (d : option R) : R :=
  match d with
  | Some x => x
  | None => 0
  end.

Definition byDistance (a b : processedBench) : R :=
  toNumber (distance a) - toNumber (distance b).

Definition byRating (a b : processedBench) : R := avgRating b - avgRating a.

Definition byRecent (a b : processedBench) : R :=
  IZR (created_at (bench_of b)) - IZR (created_at (bench_of a)).

(** An object is truthy; [null] and [undefined] are not. *)
Definition truthy {A : Type} (o : option A) : bool :=
  match o with
  | Some _ => true
  | None => false
  end.

(** Lines 167-174: the sort. *)
Definition applySort (sortBy : option string) (userLocation : option location)
    (l : list processedBench) : list processedBench :=
  match sortBy with
  | None => l
  | Some s =>
      if (s =? "distance")%string && truthy userLocation
      then Array_sort byDistance l
      else if (s =? "rating")%string then Array_sort byRating l
      else if (s =? "recent")%string then Array_sort byRecent l
      else l
  end.

Definition search (table : list bench) (p : searchParams) : list processedBench :=
  let maxDistance := effectiveMaxDistance (maxDistance p) in
  let benches :=
    supabase_select table (titlePattern (query p)) (viewTypeFilter (viewType p)) in
  let processedBenches := map (processBench (userLocation p)) benches in
  let processedBenches := distanceFilter (userLocation p) maxDistance processedBenches in
  let processedBenches := applyRatingFilter (ratingFilter p) processedBenches in
  applySort (sortBy p) (userLocation p) processedBenches.

(** ** Vocabulary of the specification *)

(** The term [a] of [calculateDistance]: the haversine of the central
    angle between the two points. *)
Definition haversine_a (lat1 lon1 lat2 lon2 : R) : R :=
  sin (toRadians (lat2 - lat1) / 2) * sin (toRadians (lat2 - lat1) / 2) +
  cos (toRadians lat1) * cos (toRadians lat2) *
  sin (toRadians (lon2 - lon1) / 2) * sin (toRadians (lon2 - lon1) / 2).

Definition Reqb (x y : R) : bool := if Req_dec_T x y then true else false.

(** Sorted lists and stable sorts, for a numeric sort key. *)
Section StableSorted.
Context {A : Type}.
Variable key : A -> R.

Definition ascending (l : list A) : Prop :=
  StronglySorted (fun a b => key a <= key b) l.


End StableSorted.




(** The filters of the specification, as one conjunction on a processed
    record. *)
Definition matchesText (p : searchParams) (b : bench) : bool :=
  match titlePattern (query p) with
  | Some pat => ilike (title b) pat
  | None => true
  end.

Definition matchesViewType (p : searchParams) (b : bench) : bool :=
  match viewTypeFilter (viewType p) with
  | Some v => String.eqb (view_type b) v
  | None => true
  end.

Definition passesDistance (maxKm : option R) (b : processedBench) : bool :=
  match maxKm, distance b with
  | Some m, Some d => Rleb d m
  | _, _ => true
  end.

Definition passesRating (minRating : option R) (b : processedBench) : bool :=
  match minRating with
  | Some r => if Req_dec_T r 0 then true else Rleb r (avgRating b)
  | None => true
  end.

Definition passesFilters (p : searchParams) (b : processedBench) : bool :=
  matchesText p (bench_of b) && matchesViewType p (bench_of b) &&
  passesDistance (effectiveMaxDistance (maxDistance p)) b &&
  passesRating (ratingFilter p) b.

(** The records that pass the filters, in the order of the table. *)
Definition filteredInput (table : list bench) (p : searchParams) : list processedBench :=
  filter (passesFilters p) (map (processBench (userLocation p)) table).

(** The pooled mean of the specification. *)
Definition sumZ (l : list Z) : Z := fold_right Z.add 0%Z l.

Definition pooledMean (rs : list rating) : R :=
  (IZR (sumZ (map view_rating rs)) + IZR (sumZ (map comfort_rating rs))) /
  (2 * INR (List.length rs)).

(** The data model: every rating is an integer from 1 to 5. *)
Definition valid_rating (r : rating) : Prop :=
  (1 <= view_rating r <= 5)%Z /\ (1 <= comfort_rating r <= 5)%Z.

Definition valid_bench (b : bench) : Prop :=
  match bench_ratings b with
  | Some rs => Forall valid_rating rs
  | None => True
  end.

(** ** Sample data: the end-to-end scenario of the specification *)

Definition oceanBench : bench :=
  mkBench "1" "Ocean Bench" "ocean" 0 0 0 (Some []).

Definition forestBench : bench :=
  mkBench "2" "Forest Bench" "forest" 0 1 0 (Some [mkRating 5 5]).

Definition origin : location := mkLocation 0 0.

(** No text, category or rating filter; [maxDistance] and [sortBy] vary. *)
Definition noFilters (s : option string) (u : option location) (m : maxDistanceArg)
    : searchParams :=
  mkParams None None None s u m.

Definition ids (l : list processedBench) : list string :=
  map (fun b => id (bench_of b)) l.

(** Projections of the argument object after an update. *)
Ltac params_simpl :=
  cbn [query viewType ratingFilter sortBy userLocation maxDistance
       set_sortBy set_maxDistance set_ratingFilter set_userLocation noFilters] in *.

(** * The other services of [api.js]

    The backend keeps its tables as lists of rows and carries out each
    request as it is written; requests fail only where a key constraint or a
    request for a single row says so. *)

(** ** JavaScript values *)

(** A string is truthy unless it is empty; so is an optional string. *)
Definition truthyString (s : option string) : option string :=
  match s with
  | Some EmptyString => None
  | other => other
  end.

(** [s.startsWith(p)]. *)
Fixpoint startsWith (s p : string) {struct p} : bool :=
  match p with
  | EmptyString => true
  | String a p' =>
      match s with
      | EmptyString => false
      | String b s' => Ascii.eqb a b && startsWith s' p'
      end
  end.

(** [ids.includes(id)], [set.has(id)] and the [in] filter of a query. *)
Definition includes (l : list string) (x : string) : bool :=
  existsb (String.eqb x) l.

(** An object used as a dictionary: its properties, in insertion order. *)
Definition jsObject (V : Type) : Type := list (string * V).

Fixpoint obj_get {V : Type} (o : jsObject V) (k : string) : option V :=
  match o with
  | [] => None
  | (k', v) :: o' => if String.eqb k' k then Some v else obj_get o' k
  end.

(** [o[k] = v]: the property is replaced where it stands, or added last. *)
Fixpoint obj_set {V : Type} (o : jsObject V) (k : string) (v : V) : jsObject V :=
  match o with
  | [] => [(k, v)]
  | (k', v') :: o' =>
      if String.eqb k' k then (k', v) :: o' else (k', v') :: obj_set o' k v
  end.

(** [.single()]: the row, when the request finds exactly one. *)
Definition single {A : Type} (rows : list A) : option A :=
  match rows with
  | [row] => Some row
  | _ => None
  end.

(** ** [favoriteService]: the batch requests (api.js, lines 918-1001) *)

(** A row of [favorites]; the pair is the table's primary key. *)
Record favorite := mkFavorite {
  fav_user_id : string;
  fav_bench_id : string
}.

Definition favoriteService_getStatusBatch (favorites : list favorite)
    (benchIds : list string) (userId : option string) : jsObject bool :=
  match benchIds, truthyString userId with
  | [], _ => []
  | _ :: _, None => []
  | _ :: _, Some u =>
      let data :=
        filter (fun f => String.eqb (fav_user_id f) u && includes benchIds (fav_bench_id f))
               favorites in
      let favoritedSet := map fav_bench_id data in
      fold_left (fun result i => obj_set result i (includes favoritedSet i)) benchIds []
  end.

(** [counts[k] = (counts[k] || 0) + 1]. *)
Definition obj_increment (counts : jsObject nat) (k : string) : jsObject nat :=
  obj_set counts k (match obj_get counts k with Some n => n | None => 0%nat end + 1)%nat.

Definition favoriteService_getCountBatch (favorites : list favorite)
    (benchIds : list string) : jsObject nat :=
  match benchIds with
  | [] => []
  | _ :: _ =>
      let data := filter (fun f => includes benchIds (fav_bench_id f)) favorites in
      let counts := fold_left (fun counts i => obj_set counts i 0%nat) benchIds [] in
      fold_left (fun counts f => obj_increment counts (fav_bench_id f)) data counts
  end.

Record batchData := mkBatchData {
  statuses : jsObject bool;
  counts : jsObject nat
}.

Definition favoriteService_getBatchData (favorites : list favorite)
    (benchIds : list string) (userId : option string) : batchData :=
  match benchIds with
  | [] => mkBatchData [] []
  | _ :: _ =>
      let data := filter (fun f => includes benchIds (fav_bench_id f)) favorites in
      let init :=
        fold_left
          (fun (sc : jsObject bool * jsObject nat) i =>
             (obj_set (fst sc) i false, obj_set (snd sc) i 0%nat))
          benchIds ([], []) in
      let final :=
        fold_left
          (fun (sc : jsObject bool * jsObject nat) f =>
             let counts := obj_increment (snd sc) (fav_bench_id f) in
             let statuses :=
               match truthyString userId with
               | Some u =>
                   if String.eqb (fav_user_id f) u
                   then obj_set (fst sc) (fav_bench_id f) true
                   else fst sc
               | None => fst sc
               end in
             (statuses, counts))
          data init in
      mkBatchData (fst final) (snd final)
  end.

(** What the batch requests report: the number of rows of a bench, and
    whether one of them is the user's. *)
Definition favoriteCount (favorites : list favorite) (benchId : string) : nat :=
  List.length (filter (fun f => String.eqb (fav_bench_id f) benchId) favorites).

Definition isFavorited (favorites : list favorite) (userId benchId : string) : bool :=
  existsb (fun f => String.eqb (fav_user_id f) userId && String.eqb (fav_bench_id f) benchId)
          favorites.

(** ** [mentionService] and the notifications (api.js, lines 763-801, 1363-1382) *)

(** [\w]: a letter, a digit or the underscore. *)
Definition isWordChar (c : ascii) : bool :=
  let n := nat_of_ascii c in
  (((48 <=? n) && (n <=? 57)) || ((65 <=? n) && (n <=? 90)) ||
   ((97 <=? n) && (n <=? 122)) || (n =? 95))%nat.

(** The loop over [/@(\w+)/g]: each match starts at an [@] that a word
    character follows and takes the longest run of word characters; the
    search goes on behind the match.  [pending] is the run read so far
    behind an [@], if one is open. *)
Fixpoint scanMentions (pending : option string) (text : string) : list string :=
  match text with
  | EmptyString =>
      match pending with
      | Some (String c name) => [String c name]
      | _ => []
      end
  | String c text' =>
      match pending with
      | Some name =>
          if isWordChar c then scanMentions (Some (name ++ String c EmptyString)%string) text'
          else
            let rest :=
              scanMentions (if Ascii.eqb c "@" then Some EmptyString else None) text' in
            match name with
            | EmptyString => rest
            | String _ _ => name :: rest
            end
      | None =>
          scanMentions (if Ascii.eqb c "@" then Some EmptyString else None) text'
      end
  end.

Definition extractMentions (text : string) : list string := scanMentions None text.

(** A row of [profiles], as the queries here read it. *)
Record profile := mkProfile {
  profile_id : string;
  username : string
}.

(** A row handed to [insert] on [notifications]; [is_read] is sent by
    [notificationService.create] only. *)
Record notification := mkNotification {
  n_user_id : string;
  n_actor_id : string;
  n_type : string;
  n_bench_id : option string;
  n_comment_id : option string;
  n_is_read : option bool
}.

(** The rows [createMentionNotifications] inserts. *)
Definition mentionService_createMentionNotifications (profiles : list profile)
    (text actorId benchId : string) (commentId : option string) : list notification :=
  let mentions := extractMentions text in
  match mentions with
  | [] => []
  | _ :: _ =>
      let users := filter (fun p => includes mentions (username p)) profiles in
      match users with
      | [] => []
      | _ :: _ =>
          map (fun user =>
                 mkNotification (profile_id user) actorId "mention" (Some benchId) commentId None)
              (filter (fun user => negb (String.eqb (profile_id user) actorId)) users)
      end
  end.

(** [notificationService.create]: the row inserted, or nothing for a
    notification to oneself. *)
Definition notificationService_create (userId actorId type : string)
    (benchId commentId : option string) : option notification :=
  if String.eqb userId actorId then None
  else Some (mkNotification userId actorId type benchId commentId (Some false)).

(** [usernameSchema] and the sign-up form: 3 to 20 word characters. *)
Fixpoint allWordChars (s : string) : bool :=
  match s with
  | EmptyString => true
  | String c s' => isWordChar c && allWordChars s'
  end.

Definition validUsername (s : string) : bool :=
  (3 <=? String.length s)%nat && (String.length s <=? 20)%nat &&
  match s with
  | EmptyString => false
  | String _ _ => allWordChars s
  end.

(** The number of [@] in a text. *)
Fixpoint countAt (text : string) : nat :=
  match text with
  | EmptyString => O
  | String c text' => ((if Ascii.eqb c "@" then 1 else 0) + countAt text')%nat
  end.

(** ** Validation ([validation/schemas.js], [validation/validate.js]) *)

(** What a function does: it throws an error with a message, or returns. *)
Inductive outcome (T : Type) : Type :=
| Throws (message : string)
| Returns (value : T).

Arguments Throws {T} message.
Arguments Returns {T} value.

(** An issue of a failed parse: where, and the message. *)
Record issue := mkIssue {
  issue_path : list string;
  issue_message : string
}.

(** The result of [schema.safeParse(data)]. *)
Inductive safeParseResult (T : Type) : Type :=
| ParseError (errors : list issue)
| ParseSuccess (data : T).

Arguments ParseError {T} errors.
Arguments ParseSuccess {T} data.

(** The result of [validate]: [{ success: false, errors }] or
    [{ success: true, data }]. *)
Inductive validation (T : Type) : Type :=
| Invalid (errors : list string)
| Valid (data : T).

Arguments Invalid {T} errors.
Arguments Valid {T} data.

Definition formatIssue (err : issue) : string :=
  let path :=
    match issue_path err with
    | [] => EmptyString
    | _ :: _ => (String.concat "." (issue_path err) ++ ": ")%string
    end in
  (path ++ issue_message err)%string.

Definition validate {I O : Type} (schema : I -> safeParseResult O) (data : I) : validation O :=
  match schema data with
  | ParseError errors => Invalid (map formatIssue errors)
  | ParseSuccess d => Valid d
  end.

Definition validateOrThrow {I O : Type} (schema : I -> safeParseResult O) (data : I)
    : outcome O :=
  match validate schema data with
  | Invalid errors => Throws ("Validation failed: " ++ String.concat ", " errors)
  | Valid d => Returns d
  end.

Definition isValid {I O : Type} (schema : I -> safeParseResult O) (data : I) : bool :=
  match schema data with
  | ParseError _ => false
  | ParseSuccess _ => true
  end.

Definition getValidationError {I O : Type} (schema : I -> safeParseResult O) (data : I)
    : option string :=
  match schema data with
  | ParseSuccess _ => None
  | ParseError errors =>
      Some match errors with
           | err :: _ =>
               match issue_message err with
               | EmptyString => "Invalid value"%string
               | message => message
               end
           | [] => "Invalid value"%string
           end
  end.

(** A parse that found no issue succeeds. *)
Definition parsed {T : Type} (errors : list issue) (data : T) : safeParseResult T :=
  match errors with
  | [] => ParseSuccess data
  | _ :: _ => ParseError errors
  end.

(** The issues of the field [name] of an object. *)
Definition atField (name : string) (messages : list string) : list issue :=
  map (mkIssue [name]) messages.

Definition Rltb (x y : R) : bool := negb (Rleb y x).

(** [Number.isInteger]. *)
Definition isInteger (x : R) : bool := Reqb (IZR (Int_part x)) x.

(** The checks of a field, each with its message, in the order written. *)
Definition check (failed : bool) (message : string) : list string :=
  if failed then [message] else [].

Definition viewTypes : list string :=
  ["ocean"; "mountain"; "urban"; "forest"; "lake"; "river"; "desert"; "valley"; "other"]%string.

Definition latitudeSchema (x : R) : list string :=
  check (Rltb x (-90)) "Latitude must be between -90 and 90" ++
  check (Rltb 90 x) "Latitude must be between -90 and 90".

Definition longitudeSchema (x : R) : list string :=
  check (Rltb x (-180)) "Longitude must be between -180 and 180" ++
  check (Rltb 180 x) "Longitude must be between -180 and 180".

Record coordinates := mkCoordinates {
  c_latitude : R;
  c_longitude : R
}.

Definition coordinatesSchema (c : coordinates) : safeParseResult coordinates :=
  parsed (atField "latitude" (latitudeSchema (c_latitude c)) ++
          atField "longitude" (longitudeSchema (c_longitude c)))
         c.

Definition ratingValueSchema (x : R) : list string :=
  check (negb (isInteger x)) "Rating must be a whole number" ++
  check (Rltb x 1) "Rating must be at least 1" ++
  check (Rltb 5 x) "Rating must be at most 5".

Record ratingInput := mkRatingInput {
  ri_viewRating : R;
  ri_comfortRating : R
}.

Definition ratingSchema (r : ratingInput) : safeParseResult ratingInput :=
  parsed (atField "viewRating" (ratingValueSchema (ri_viewRating r)) ++
          atField "comfortRating" (ratingValueSchema (ri_comfortRating r)))
         r.

(** [val?.trim() || null]. *)
Definition trimOrNull (val : option string) : option string :=
  match val with
  | Some s =>
      match trim s with
      | EmptyString => None
      | t => Some t
      end
  | None => None
  end.

Definition optionalMaxLength (limit : nat) (message : string) (val : option string)
    : list string :=
  match val with
  | Some s => check (limit <? String.length s)%nat message
  | None => []
  end.

Record benchInput := mkBenchInput {
  bi_title : string;
  bi_description : option string;
  bi_latitude : R;
  bi_longitude : R;
  bi_viewType : string;
  bi_accessibilityNotes : option string
}.

Section Schemas.

(** The messages and tests that are the validation library's own: its
    message for a value outside an enumeration, and its test for a UUID. *)
Variable invalidEnumMessage : string -> string.
Variable isUuid : string -> bool.

Definition viewTypeSchema (v : string) : list string :=
  check (negb (includes viewTypes v)) (invalidEnumMessage v).

Definition benchCreateSchema (b : benchInput) : safeParseResult benchInput :=
  parsed
    (atField "title"
       (check (String.length (bi_title b) <? 1)%nat "Title is required" ++
        check (100 <? String.length (bi_title b))%nat "Title must be 100 characters or less") ++
     atField "description"
       (optionalMaxLength 1000 "Description must be 1000 characters or less"
          (bi_description b)) ++
     atField "latitude" (latitudeSchema (bi_latitude b)) ++
     atField "longitude" (longitudeSchema (bi_longitude b)) ++
     atField "viewType" (viewTypeSchema (bi_viewType b)) ++
     atField "accessibilityNotes"
       (optionalMaxLength 500 "Accessibility notes must be 500 characters or less"
          (bi_accessibilityNotes b)))
    (mkBenchInput (trim (bi_title b)) (trimOrNull (bi_description b))
       (bi_latitude b) (bi_longitude b) (bi_viewType b)
       (trimOrNull (bi_accessibilityNotes b))).

Record commentInput := mkCommentInput {
  ci_text : string;
  ci_parentId : option string
}.

Definition commentCreateSchema (c : commentInput) : safeParseResult commentInput :=
  parsed
    (atField "text"
       (check (String.length (ci_text c) <? 1)%nat "Comment cannot be empty" ++
        check (1000 <? String.length (ci_text c))%nat
          "Comment must be 1000 characters or less") ++
     atField "parentId"
       match ci_parentId c with
       | Some p => check (negb (isUuid p)) "Invalid parent comment ID"
       | None => []
       end)
    (mkCommentInput (trim (ci_text c)) (ci_parentId c)).

End Schemas.

(** ** Writes that are validated first (api.js, lines 66-81, 196-223, 490-510) *)

(** [benchService.getNearby]; [get_nearby_benches] is the backend's
    function of that name, [None] for an answer without data. *)
Definition benchService_getNearby
    (get_nearby_benches : R -> R -> R -> option (list bench))
    (latitude longitude : R) (radiusMeters : option R) : outcome (list bench) :=
  let radiusMeters := match radiusMeters with Some r => r | None => 5000 end in
  match validateOrThrow coordinatesSchema (mkCoordinates latitude longitude) with
  | Throws message => Throws message
  | Returns validatedCoords =>
      match get_nearby_benches (c_latitude validatedCoords) (c_longitude validatedCoords)
                               radiusMeters with
      | Some data => Returns data
      | None => Returns []
      end
  end.

(** The row [benchService.create] hands to [insert]. *)
Record benchInsert := mkBenchInsert {
  ins_user_id : string;
  ins_title : string;
  ins_description : option string;
  ins_latitude : R;
  ins_longitude : R;
  ins_view_type : string;
  ins_accessibility_notes : option string
}.

Definition benchService_create (invalidEnumMessage : string -> string)
    (userId : string) (input : benchInput) : outcome benchInsert :=
  match validateOrThrow (benchCreateSchema invalidEnumMessage) input with
  | Throws message => Throws message
  | Returns validatedData =>
      Returns (mkBenchInsert userId (bi_title validatedData) (bi_description validatedData)
                 (bi_latitude validatedData) (bi_longitude validatedData)
                 (bi_viewType validatedData) (bi_accessibilityNotes validatedData))
  end.

(** The row [ratingService.upsert] hands to [upsert]. *)
Record ratingUpsert := mkRatingUpsert {
  ru_bench_id : string;
  ru_user_id : string;
  ru_view_rating : R;
  ru_comfort_rating : R
}.

Definition ratingService_upsert (benchId userId : string) (viewRating comfortRating : R)
    : outcome ratingUpsert :=
  match validateOrThrow ratingSchema (mkRatingInput viewRating comfortRating) with
  | Throws message => Throws message
  | Returns validatedRating =>
      Returns (mkRatingUpsert benchId userId (ri_viewRating validatedRating)
                 (ri_comfortRating validatedRating))
  end.

(** What the schemas ask of a bench and of a rating. *)
Definition optionalAtMost (limit : nat) (val : option string) : Prop :=
  match val with
  | Some s => (String.length s <= limit)%nat
  | None => True
  end.

Definition benchInputOk (b : benchInput) : Prop :=
  (1 <= String.length (bi_title b) <= 100)%nat /\
  optionalAtMost 1000 (bi_description b) /\
  -90 <= bi_latitude b <= 90 /\
  -180 <= bi_longitude b <= 180 /\
  In (bi_viewType b) viewTypes /\
  optionalAtMost 500 (bi_accessibilityNotes b).

Fixpoint allWhitespace (s : string) : bool :=
  match s with
  | EmptyString => true
  | String c s' => is_whitespace c && allWhitespace s'
  end.

(** ** [commentService.create] (api.js, lines 556-622) *)

(** Rows of [benches] and of [comments], as the lookups here read them. *)
Record benchOwner := mkBenchOwner {
  bo_id : string;
  bo_user_id : string
}.

Record commentAuthor := mkCommentAuthor {
  ca_id : string;
  ca_user_id : string
}.

(** The row handed to [insert] on [comments]. *)
Record commentInsert := mkCommentInsert {
  cm_bench_id : string;
  cm_user_id : string;
  cm_text : string;
  cm_parent_id : option string
}.

(** What a call of [create] writes: the comment, and the notifications in
    the order they are inserted. *)
Record commentWrites := mkCommentWrites {
  written : commentInsert;
  notified : list notification
}.

Definition optionToList {A : Type} (o : option A) : list A :=
  match o with
  | Some x => [x]
  | None => []
  end.

(** [newId] is the id the backend gives the comment. *)
Definition commentService_create (isUuid : string -> bool)
    (benches : list benchOwner) (comments : list commentAuthor) (profiles : list profile)
    (newId : string)
    (benchId userId text : string) (parentId : option string) : outcome commentWrites :=
  match validateOrThrow (commentCreateSchema isUuid) (mkCommentInput text parentId) with
  | Throws message => Throws message
  | Returns validatedComment =>
      let data :=
        mkCommentInsert benchId userId (ci_text validatedComment)
                        (ci_parentId validatedComment) in
      let comments := comments ++ [mkCommentAuthor newId userId] in
      let forOwner :=
        match single (filter (fun b => String.eqb (bo_id b) benchId) benches) with
        | Some bench =>
            if negb (String.eqb (bo_user_id bench) userId)
            then optionToList
                   (notificationService_create (bo_user_id bench) userId "comment"
                      (Some benchId) None)
            else []
        | None => []
        end in
      let forParent :=
        match truthyString parentId with
        | Some p =>
            match single (filter (fun c => String.eqb (ca_id c) p) comments) with
            | Some parentComment =>
                if negb (String.eqb (ca_user_id parentComment) userId)
                then optionToList
                       (notificationService_create (ca_user_id parentComment) userId "reply"
                          (Some benchId) (Some p))
                else []
            | None => []
            end
        | None => []
        end in
      let forMentions :=
        mentionService_createMentionNotifications profiles text userId benchId (Some newId) in
      Returns (mkCommentWrites data (forOwner ++ forParent ++ forMentions))
  end.

Definition commentInputOk (isUuid : string -> bool) (text : string)
    (parentId : option string) : Prop :=
  (1 <= String.length text <= 1000)%nat /\
  match parentId with
  | Some p => isUuid p = true
  | None => True
  end.

(** ** Toggles: [followService], [favoriteService], [commentLikeService]
    (api.js, lines 1012-1136, 811-896, 661-703) *)

(** The backend's error for a row that breaks a primary key, by its code. *)
Definition duplicateKey : string := "23505".

(** A row of [follows]; the pair is the table's primary key. *)
Record follow := mkFollow {
  follower_id : string;
  following_id : string
}.

Definition sameFollow (followerId followingId : string) (r : follow) : bool :=
  String.eqb (follower_id r) followerId && String.eqb (following_id r) followingId.

Definition followService_isFollowing (follows : list follow)
    (followerId followingId : string) : bool :=
  match single (filter (sameFollow followerId followingId) follows) with
  | Some _ => true
  | None => false
  end.

(** [follow] and [unfollow], by the table they leave. *)
Definition followService_follow (follows : list follow)
    (followerId followingId : string) : outcome (list follow) :=
  if String.eqb followerId followingId then Throws "Cannot follow yourself"
  else if existsb (sameFollow followerId followingId) follows then Throws duplicateKey
  else Returns (follows ++ [mkFollow followerId followingId]).

Definition followService_unfollow (follows : list follow)
    (followerId followingId : string) : list follow :=
  filter (fun r => negb (sameFollow followerId followingId r)) follows.

(** [toggle]: the status it returns, and the table it leaves. *)
Definition followService_toggle (follows : list follow)
    (followerId followingId : string) : outcome (bool * list follow) :=
  if followService_isFollowing follows followerId followingId
  then Returns (false, followService_unfollow follows followerId followingId)
  else
    match followService_follow follows followerId followingId with
    | Throws message => Throws message
    | Returns follows' => Returns (true, follows')
    end.

(** The table keeps its key, and nobody follows themself. *)
Definition followsOk (follows : list follow) : Prop :=
  NoDup follows /\ Forall (fun r => follower_id r <> following_id r) follows.

Definition sameFavorite (benchId userId : string) (f : favorite) : bool :=
  String.eqb (fav_user_id f) userId && String.eqb (fav_bench_id f) benchId.

Definition favoriteService_isFavorite (favorites : list favorite)
    (benchId userId : string) : bool :=
  match single (filter (sameFavorite benchId userId) favorites) with
  | Some _ => true
  | None => false
  end.

Definition favoriteService_add (favorites : list favorite)
    (benchId userId : string) : outcome (list favorite) :=
  if existsb (sameFavorite benchId userId) favorites then Throws duplicateKey
  else Returns (favorites ++ [mkFavorite userId benchId]).

Definition favoriteService_remove (favorites : list favorite)
    (benchId userId : string) : list favorite :=
  filter (fun f => negb (sameFavorite benchId userId f)) favorites.

Definition favoriteService_toggle (favorites : list favorite)
    (benchId userId : string) : outcome (bool * list favorite) :=
  if favoriteService_isFavorite favorites benchId userId
  then Returns (false, favoriteService_remove favorites benchId userId)
  else
    match favoriteService_add favorites benchId userId with
    | Throws message => Throws message
    | Returns favorites' => Returns (true, favorites')
    end.

(** A row of [comment_likes]; the table has an id of its own for its key. *)
Record commentLike := mkCommentLike {
  cl_comment_id : string;
  cl_user_id : string
}.

(** A row of [comments], as the lookup of [toggle] reads it. *)
Record likedComment := mkLikedComment {
  lc_id : string;
  lc_user_id : string;
  lc_bench_id : string
}.

Definition sameLike (commentId userId : string) (l : commentLike) : bool :=
  String.eqb (cl_comment_id l) commentId && String.eqb (cl_user_id l) userId.

(** What [toggle] returns and leaves: the status, the table of likes, and
    the notification it inserts, if any. *)
Record likeToggle := mkLikeToggle {
  liked : bool;
  likes : list commentLike;
  likeNotified : option notification
}.

Definition commentLikeService_toggle (comment_likes : list commentLike)
    (comments : list likedComment) (commentId userId : string) : likeToggle :=
  match single (filter (sameLike commentId userId) comment_likes) with
  | Some existing =>
      mkLikeToggle false
        (filter (fun l => negb (sameLike commentId userId l)) comment_likes) None
  | None =>
      let comment_likes := comment_likes ++ [mkCommentLike commentId userId] in
      let notification :=
        match single (filter (fun c => String.eqb (lc_id c) commentId) comments) with
        | Some comment =>
            notificationService_create (lc_user_id comment) userId "comment_like"
              (Some (lc_bench_id comment)) (Some commentId)
        | None => None
        end in
      mkLikeToggle true comment_likes notification
  end.

(** The likes a user gave a comment. *)
Definition likeCount (comment_likes : list commentLike) (commentId userId : string) : nat :=
  List.length (filter (sameLike commentId userId) comment_likes).

(** ** [SearchResultCard]: what a result shows (SearchResultCard.js, lines 40-56) *)

(** [bench.avgRating > 0 &&]: the rating badge. *)
Definition showsRating (b : processedBench) : bool := Rltb 0 (avgRating b).

(** [bench.distance !== null &&]: the distance text. *)
Definition showsDistance (b : processedBench) : bool :=
  match distance b with
  | Some _ => true
  | None => false
  end.

(** [bench.distance < 1]: metres rather than kilometres. *)
Definition showsMetres (b : processedBench) : bool :=
  match distance b with
  | Some d => Rltb d 1
  | None => false
  end.

(** ** [photoService] (api.js, lines 296-451) *)

(** [s.split(sep)] for a separator that is not empty, as the two of the
    code are: the pieces between the occurrences of [sep], found from the
    left and not overlapping.  [skip] counts the characters of an
    occurrence still to pass; [piece] is the piece read so far. *)
Fixpoint splitFrom (sep : string) (skip : nat) (piece s : string) : list string :=
  match s with
  | EmptyString => [piece]
  | String c s' =>
      match skip with
      | S k => splitFrom sep k piece s'
      | O =>
          if startsWith s sep
          then piece :: splitFrom sep (String.length sep - 1) EmptyString s'
          else splitFrom sep 0 (piece ++ String c EmptyString)%string s'
      end
  end.

Definition split (s sep : string) : list string := splitFrom sep 0 EmptyString s.

(** [s.includes(sep)]. *)
Fixpoint occursIn (sep s : string) : bool :=
  startsWith s sep ||
  match s with
  | EmptyString => false
  | String _ s' => occursIn sep s'
  end.

(** [mimeType?.split('/')[1] || 'jpg']. *)
Definition fileExtOf (mimeType : option string) : string :=
  match truthyString
          match mimeType with
          | Some m => nth_error (split m "/") 1
          | None => None
          end with
  | Some fileExt => fileExt
  | None => "jpg"
  end.

(** The name of the stored object; [now] is the reading of [Date.now()] as
    the template writes it. *)
Definition uploadFileName (userId benchId now fileExt : string) : string :=
  (userId ++ "/" ++ benchId ++ "/" ++ now ++ "." ++
   (if String.eqb fileExt "jpeg" then "jpg" else fileExt))%string.

Definition uploadContentType (fileExt : string) : string :=
  ("image/" ++ (if String.eqb fileExt "jpg" then "jpeg" else fileExt))%string.

(** The row [upload] inserts into [bench_photos]. *)
Record photoInsert := mkPhotoInsert {
  pi_bench_id : string;
  pi_photo_url : string;
  pi_is_primary : bool
}.

(** What one [upload] leaves: the object in the bucket and the row. *)
Record uploaded := mkUploaded {
  up_fileName : string;
  up_contentType : string;
  up_row : photoInsert
}.

(** A photo as the picker hands it over. *)
Record pickedPhoto := mkPicked {
  base64 : string;
  mimeType : option string
}.

Section Storage.

(** The platform and the storage client: [atob] decodes or throws; the
    upload of [fileName bytes contentType] answers with an error or with
    none; [getPublicUrl] writes the address of an object. *)
Variable atob : string -> outcome string.
Variable storage_upload : string -> string -> string -> option string.
Variable getPublicUrl : string -> string.

Definition photoService_upload (benchId userId photoData : string)
    (mimeType : option string) (isPrimary : bool) (now : string) : outcome uploaded :=
  let fileExt := fileExtOf mimeType in
  let fileName := uploadFileName userId benchId now fileExt in
  let contentType := uploadContentType fileExt in
  match atob photoData with
  | Throws message => Throws message
  | Returns bytes =>
      match storage_upload fileName bytes contentType with
      | Some uploadError => Throws uploadError
      | None =>
          let publicUrl := getPublicUrl fileName in
          Returns (mkUploaded fileName contentType
                     (mkPhotoInsert benchId publicUrl isPrimary))
      end
  end.

(** The loop of [uploadMultiple] from index [i] on; [clock i] is the reading
    of [Date.now()] in the upload of photo [i]. *)
Fixpoint uploadFrom (benchId userId : string) (clock : nat -> string) (i : nat)
    (photos : list pickedPhoto) : list uploaded :=
  match photos with
  | [] => []
  | photo :: rest =>
      match photoService_upload benchId userId (base64 photo) (mimeType photo)
              (Nat.eqb i 0) (clock i) with
      | Returns uploaded => uploaded :: uploadFrom benchId userId clock (S i) rest
      | Throws _ => uploadFrom benchId userId clock (S i) rest
      end
  end.

Definition photoService_uploadMultiple (benchId userId : string) (clock : nat -> string)
    (photos : list pickedPhoto) : list uploaded :=
  uploadFrom benchId userId clock 0 photos.

End Storage.

(** A row of [bench_photos]. *)
Record benchPhoto := mkBenchPhoto {
  ph_id : string;
  ph_bench_id : string;
  ph_photo_url : string;
  ph_is_primary : bool
}.

(** [photo.photo_url.split('/bench-photos/')[1]]. *)
Definition storagePath (photo_url : string) : option string :=
  nth_error (split photo_url "/bench-photos/") 1.

(** [deleteFromStorage]: the paths it asks the bucket to remove. *)
Definition photoService_deleteFromStorage (photos : list benchPhoto) : list (option string) :=
  map (fun photo => storagePath (ph_photo_url photo)) photos.

Definition hasId (photoId : string) (photo : benchPhoto) : bool :=
  String.eqb (ph_id photo) photoId.

(** [delete]: the paths removed from the bucket, and the table it leaves. *)
Definition photoService_delete (bench_photos : list benchPhoto) (photoId : string)
    : outcome (list string * list benchPhoto) :=
  match single (filter (hasId photoId) bench_photos) with
  | None => Throws "PGRST116"
  | Some photo =>
      let removed :=
        match truthyString (Some (ph_photo_url photo)) with
        | Some photo_url =>
            match truthyString (storagePath photo_url) with
            | Some path => [path]
            | None => []
            end
        | None => []
        end in
      Returns (removed, filter (fun p => negb (hasId photoId p)) bench_photos)
  end.

(** [.update({ is_primary })] on the rows a filter selects. *)
Definition update_is_primary (is_primary : bool) (selected : benchPhoto -> bool)
    (bench_photos : list benchPhoto) : list benchPhoto :=
  map (fun photo =>
         if selected photo
         then mkBenchPhoto (ph_id photo) (ph_bench_id photo) (ph_photo_url photo) is_primary
         else photo)
    bench_photos.

(** [setPrimary]: the table it leaves, and what it returns or throws. *)
Definition photoService_setPrimary (bench_photos : list benchPhoto)
    (photoId benchId : string) : list benchPhoto * outcome benchPhoto :=
  let bench_photos :=
    update_is_primary false (fun photo => String.eqb (ph_bench_id photo) benchId)
      bench_photos in
  let bench_photos := update_is_primary true (hasId photoId) bench_photos in
  match single (filter (hasId photoId) bench_photos) with
  | Some data => (bench_photos, Returns data)
  | None => (bench_photos, Throws "PGRST116")
  end.

(** The primary photos of a bench. *)
Definition primaryPhotos (bench_photos : list benchPhoto) (benchId : string)
    : list benchPhoto :=
  filter (fun photo => String.eqb (ph_bench_id photo) benchId && ph_is_primary photo)
    bench_photos.
(** * Properties *)

(** ** The string functions, on examples *)

Example trim_example : trim "  Pier  " = "Pier"%string.
Proof. reflexivity. Qed.

Example titlePattern_example : titlePattern (Some " Pier "%string) = Some "%Pier%"%string.
Proof. reflexivity. Qed.

Example titlePattern_blank : titlePattern (Some "   "%string) = None.
Proof. reflexivity. Qed.

Example ilike_example : ilike "Santa Monica Pier" "%pier%" = true.
Proof. reflexivity. Qed.

Example ilike_no_match : ilike "Ocean Bench" "%pier%" = false.
Proof. reflexivity. Qed.

Example supabase_select_example :
  map id (supabase_select [oceanBench; forestBench]
            (titlePattern (Some "bench "%string)) (viewTypeFilter (Some "forest"%string))) =
  ["2"%string].
Proof. reflexivity. Qed.

(** ** Numbers and distances *)

Lemma PI_approx : 3.1415 < PI < 3.1416.
Proof.
  pose proof (PI_2_3_7_ineq 2) as H.
  unfold PI_2_3_7_tg, tg_alt, Ratan_seq in H.
  simpl in H.
  lra.
Qed.



Lemma sin_half_sq_opp x : sin (- x / 2) * sin (- x / 2) = sin (x / 2) * sin (x / 2).
Proof.
  replace (- x / 2) with (- (x / 2)) by field.
  rewrite sin_neg. ring.
Qed.

Lemma haversine_a_sym lat1 lon1 lat2 lon2 :
  haversine_a lat1 lon1 lat2 lon2 = haversine_a lat2 lon2 lat1 lon1.
Proof.
  unfold haversine_a.
  replace (toRadians (lat1 - lat2)) with (- toRadians (lat2 - lat1))
    by (unfold toRadians; ring).
  replace (toRadians (lon1 - lon2)) with (- toRadians (lon2 - lon1))
    by (unfold toRadians; ring).
  rewrite (sin_half_sq_opp (toRadians (lat2 - lat1))).
  rewrite !Rmult_assoc.
  rewrite (sin_half_sq_opp (toRadians (lon2 - lon1))).
  ring.
Qed.

Lemma haversine_a_same lat lon : haversine_a lat lon lat lon = 0.
Proof.
  unfold haversine_a, toRadians.
  replace ((lat - lat) * (PI / 180) / 2) with 0 by field.
  replace ((lon - lon) * (PI / 180) / 2) with 0 by field.
  rewrite sin_0. ring.
Qed.




Lemma Math_atan2_quadrant1 y x : 0 <= y -> 0 <= x -> 0 <= Math_atan2 y x <= PI / 2.
Proof.
  intros Hy Hx. pose proof PI_RGT_0 as Hpi. unfold Math_atan2.
  destruct (Rlt_dec 0 x) as [Hx0 | Hx0].
  - assert (0 <= y / x) as Hq.
    { apply Rmult_le_pos; [assumption | left; apply Rinv_0_lt_compat; assumption]. }
    pose proof (atan_bound (y / x)) as [_ Hub].
    split; [| lra].
    destruct Hq as [Hq | Hq].
    + left. rewrite <- atan_0. apply atan_increasing. assumption.
    + rewrite <- Hq, atan_0. lra.
  - destruct (Rlt_dec x 0); [lra |].
    destruct (Rlt_dec 0 y); [lra |].
    destruct (Rlt_dec y 0); lra.
Qed.

Lemma calculateDistance_haversine lat1 lon1 lat2 lon2 :
  calculateDistance lat1 lon1 lat2 lon2 =
  6371 * (2 * Math_atan2 (sqrt (haversine_a lat1 lon1 lat2 lon2))
                         (sqrt (1 - haversine_a lat1 lon1 lat2 lon2))).
Proof. reflexivity. Qed.

Lemma calculateDistance_range lat1 lon1 lat2 lon2 :
  0 <= calculateDistance lat1 lon1 lat2 lon2 <= 6371 * PI.
Proof.
  rewrite calculateDistance_haversine.
  pose proof (Math_atan2_quadrant1 _ _
    (sqrt_pos (haversine_a lat1 lon1 lat2 lon2))
    (sqrt_pos (1 - haversine_a lat1 lon1 lat2 lon2))) as H.
  lra.
Qed.

Lemma Math_atan2_0_pos x : 0 < x -> Math_atan2 0 x = 0.
Proof.
  intro Hx. unfold Math_atan2. destruct (Rlt_dec 0 x); [| lra].
  unfold Rdiv. rewrite Rmult_0_l. apply atan_0.
Qed.


Lemma calculateDistance_of_a lat1 lon1 lat2 lon2 a :
  haversine_a lat1 lon1 lat2 lon2 = a ->
  calculateDistance lat1 lon1 lat2 lon2 = 6371 * (2 * Math_atan2 (sqrt a) (sqrt (1 - a))).
Proof. intros <-. apply calculateDistance_haversine. Qed.

Lemma calculateDistance_same lat lon : calculateDistance lat lon lat lon = 0.
Proof.
  rewrite (calculateDistance_of_a _ _ _ _ 0 (haversine_a_same lat lon)).
  rewrite Rminus_0_r, sqrt_0, sqrt_1, Math_atan2_0_pos by lra. ring.
Qed.

Lemma calculateDistance_sym lat1 lon1 lat2 lon2 :
  calculateDistance lat1 lon1 lat2 lon2 = calculateDistance lat2 lon2 lat1 lon1.
Proof.
  rewrite !calculateDistance_haversine, (haversine_a_sym lat1 lon1 lat2 lon2).
  reflexivity.
Qed.



Lemma Math_atan2_sin_cos t : - (PI / 2) < t < PI / 2 -> Math_atan2 (sin t) (cos t) = t.
Proof.
  intros Ht. unfold Math_atan2.
  assert (0 < cos t) as Hc by (apply cos_gt_0; lra).
  destruct (Rlt_dec 0 (cos t)); [| lra].
  change (sin t / cos t) with (tan t). apply atan_tan. assumption.
Qed.



Lemma Rleb_true x y : Rleb x y = true <-> x <= y.
Proof. unfold Rleb. destruct (Rle_dec x y); split; intros; try discriminate; auto; contradiction. Qed.

Lemma Reqb_true x y : Reqb x y = true <-> x = y.
Proof. unfold Reqb. destruct (Req_dec_T x y); split; intros; try discriminate; auto; contradiction. Qed.


(** ** Lists sorted by a key *)

Section KeyFacts.
Context {A : Type}.
Variable key : A -> R.





End KeyFacts.

(** ** The model of [Array.prototype.sort] *)

Section ArraySortFacts.
Context {A : Type}.
Variable comparefn : A -> A -> R.

Lemma sort_insert_perm x l : Permutation (sort_insert comparefn x l) (x :: l).
Proof.
  induction l as [| y l IH]; simpl.
  - apply Permutation_refl.
  - destruct (Rlt_dec 0 (comparefn x y)).
    + apply perm_trans with (y :: x :: l); [apply perm_skip, IH | apply perm_swap].
    + apply Permutation_refl.
Qed.

Lemma Array_sort_perm l : Permutation (Array_sort comparefn l) l.
Proof.
  induction l as [| x l IH]; simpl.
  - apply perm_nil.
  - eapply perm_trans; [apply sort_insert_perm | apply perm_skip, IH].
Qed.

Variable key : A -> R.
Hypothesis comparefn_key : forall a b, comparefn a b = key a - key b.

Lemma sort_insert_front x l :
  Forall (fun y => key x <= key y) l -> sort_insert comparefn x l = x :: l.
Proof.
  intros H. destruct l as [| y l]; simpl; [reflexivity |].
  inversion H; subst.
  destruct (Rlt_dec 0 (comparefn x y)) as [Hgt | _]; [| reflexivity].
  rewrite comparefn_key in Hgt. lra.
Qed.

Lemma sort_insert_ascending x l :
  ascending key l -> ascending key (sort_insert comparefn x l).
Proof.
  unfold ascending.
  induction 1 as [| y l Hs IH Hy]; simpl.
  - constructor; constructor.
  - destruct (Rlt_dec 0 (comparefn x y)) as [Hgt | Hle];
      rewrite comparefn_key in *.
    + constructor; [exact IH |].
      apply Forall_forall. intros z Hz.
      apply (Permutation_in _ (sort_insert_perm x l)) in Hz.
      rewrite Forall_forall in Hy.
      destruct Hz as [<- | Hz]; [lra | exact (Hy z Hz)].
    + constructor; [constructor; assumption |].
      constructor; [lra |].
      eapply Forall_impl; [| exact Hy]. simpl. intros; lra.
Qed.

Lemma Array_sort_ascending l : ascending key (Array_sort comparefn l).
Proof.
  induction l as [| x l IH]; simpl.
  - constructor.
  - apply sort_insert_ascending, IH.
Qed.

Lemma filter_sort_insert (P : A -> bool) x l :
  ascending key l ->
  filter P (sort_insert comparefn x l) =
  if P x then sort_insert comparefn x (filter P l) else filter P l.
Proof.
  unfold ascending.
  induction 1 as [| y l Hs IH Hy]; simpl.
  - destruct (P x); reflexivity.
  - destruct (Rlt_dec 0 (comparefn x y)) as [Hgt | Hle]; simpl.
    + rewrite IH. destruct (P x), (P y); simpl; try reflexivity.
      destruct (Rlt_dec 0 (comparefn x y)); [reflexivity | contradiction].
    + destruct (P x) eqn:Px, (P y) eqn:Py; simpl; rewrite ?Px, ?Py; try reflexivity.
      * destruct (Rlt_dec 0 (comparefn x y)); [contradiction | reflexivity].
      * symmetry. apply sort_insert_front.
        rewrite comparefn_key in Hle.
        apply Forall_forall. intros z Hz.
        apply filter_In in Hz. destruct Hz as [Hz _].
        rewrite Forall_forall in Hy. specialize (Hy z Hz). simpl in Hy. lra.
Qed.

Lemma filter_Array_sort (P : A -> bool) l :
  filter P (Array_sort comparefn l) = Array_sort comparefn (filter P l).
Proof.
  induction l as [| x l IH]; simpl; [reflexivity |].
  rewrite filter_sort_insert by apply Array_sort_ascending.
  rewrite IH. destruct (P x); reflexivity.
Qed.



End ArraySortFacts.

(** ** The stages of [search] *)

Lemma filter_andb {A : Type} (P Q : A -> bool) l :
  filter Q (filter P l) = filter (fun x => P x && Q x) l.
Proof.
  induction l as [| x l IH]; simpl; [reflexivity |].
  destruct (P x); simpl; [| exact IH].
  destruct (Q x); [f_equal |]; exact IH.
Qed.

Lemma filter_all {A : Type} (P : A -> bool) l :
  (forall x, In x l -> P x = true) -> filter P l = l.
Proof.
  intros H. rewrite (filter_ext_in P (fun _ => true) l H). apply filter_true.
Qed.

Lemma filter_none {A : Type} (P : A -> bool) l :
  (forall x, In x l -> P x = false) -> filter P l = [].
Proof.
  induction l as [| x l IH]; intros H; simpl; [reflexivity |].
  rewrite (H x (or_introl eq_refl)). apply IH. intros y Hy. apply H. right; exact Hy.
Qed.

Lemma supabase_select_filter table p :
  supabase_select table (titlePattern (query p)) (viewTypeFilter (viewType p)) =
  filter (fun b => matchesText p b && matchesViewType p b) table.
Proof.
  unfold supabase_select, matchesText, matchesViewType.
  destruct (titlePattern (query p)) as [pat |], (viewTypeFilter (viewType p)) as [v |].
  - apply filter_andb.
  - apply filter_ext. intro b. rewrite andb_true_r. reflexivity.
  - reflexivity.
  - symmetry. apply filter_true.
Qed.

Lemma distance_processBench u b :
  distance (processBench u b) =
  match u with
  | Some o => Some (calculateDistance (loc_latitude o) (loc_longitude o)
                                      (latitude b) (longitude b))
  | None => None
  end.
Proof. reflexivity. Qed.

Lemma distanceFilter_filter u m (l : list bench) :
  distanceFilter u m (map (processBench u) l) =
  filter (passesDistance m) (map (processBench u) l).
Proof.
  unfold distanceFilter. destruct u as [o |], m as [maxKm |].
  - apply filter_ext_in. intros pb Hpb. apply in_map_iff in Hpb.
    destruct Hpb as [b [<- _]]. reflexivity.
  - symmetry. apply filter_true.
  - symmetry. apply filter_all. intros pb Hpb. apply in_map_iff in Hpb.
    destruct Hpb as [b [<- _]]. reflexivity.
  - symmetry. apply filter_true.
Qed.

Lemma applyRatingFilter_filter r l :
  applyRatingFilter r l = filter (passesRating r) l.
Proof.
  unfold applyRatingFilter, passesRating. destruct r as [r |].
  - destruct (Req_dec_T r 0); [symmetry; apply filter_true | reflexivity].
  - symmetry. apply filter_true.
Qed.

(** The comparison functions are differences of sort keys. *)
Lemma byDistance_key a b :
  byDistance a b = toNumber (distance a) - toNumber (distance b).
Proof. reflexivity. Qed.

Lemma byRating_key a b : byRating a b = - avgRating a - - avgRating b.
Proof. unfold byRating. ring. Qed.

Lemma byRecent_key a b :
  byRecent a b = - IZR (created_at (bench_of a)) - - IZR (created_at (bench_of b)).
Proof. unfold byRecent. ring. Qed.



Lemma applySort_perm s u l : Permutation (applySort s u l) l.
Proof.
  unfold applySort. destruct s as [s |]; [| apply Permutation_refl].
  destruct ((s =? "distance")%string && truthy u); [apply Array_sort_perm |].
  destruct (s =? "rating")%string; [apply Array_sort_perm |].
  destruct (s =? "recent")%string; [apply Array_sort_perm | apply Permutation_refl].
Qed.

Lemma filter_applySort (P : processedBench -> bool) s u l :
  filter P (applySort s u l) = applySort s u (filter P l).
Proof.
  unfold applySort. destruct s as [s |]; [| reflexivity].
  destruct ((s =? "distance")%string && truthy u).
  { apply (filter_Array_sort _ _ byDistance_key). }
  destruct (s =? "rating")%string.
  { apply (filter_Array_sort _ _ byRating_key). }
  destruct (s =? "recent")%string.
  { apply (filter_Array_sort _ _ byRecent_key). }
  reflexivity.
Qed.

(** [search] sorts the records that pass the conjunction of the filters. *)
Lemma search_filteredInput table p :
  search table p = applySort (sortBy p) (userLocation p) (filteredInput table p).
Proof.
  unfold search, filteredInput. f_equal.
  rewrite supabase_select_filter, applyRatingFilter_filter, distanceFilter_filter.
  rewrite <- filter_map_swap with (f := fun pb => matchesText p (bench_of pb) && matchesViewType p (bench_of pb)).
  rewrite !filter_andb. apply filter_ext. intro pb.
  unfold passesFilters. rewrite <- !andb_assoc. reflexivity.
Qed.


Lemma search_perm table p : Permutation (search table p) (filteredInput table p).
Proof. rewrite search_filteredInput. apply applySort_perm. Qed.

Lemma filteredInput_In table p pb :
  In pb (filteredInput table p) ->
  exists b, In b table /\ pb = processBench (userLocation p) b.
Proof.
  unfold filteredInput. intros H. apply filter_In in H. destruct H as [H _].
  apply in_map_iff in H. destruct H as [b [<- Hb]]. exists b. split; [exact Hb | reflexivity].
Qed.

Lemma search_In table p pb :
  In pb (search table p) <-> In pb (filteredInput table p).
Proof.
  split; apply Permutation_in; [| symmetry]; apply search_perm.
Qed.

(** ** Distances (C9, C10) *)

(** C9.  [calculateDistance] is symmetric in its two points, and the
    distance from a point to itself is exactly 0. *)
Theorem calculateDistance_symmetric_and_zero :
  (forall lat1 lon1 lat2 lon2,
     calculateDistance lat1 lon1 lat2 lon2 = calculateDistance lat2 lon2 lat1 lon1) /\
  (forall lat lon, calculateDistance lat lon lat lon = 0).
Proof.
  split.
  - exact calculateDistance_sym.
  - exact calculateDistance_same.
Qed.


(** ** Average rating (C3) *)

Lemma fold_left_sum {A : Type} (f : A -> Z) l : forall acc,
  fold_left (fun sum r => (sum + f r)%Z) l acc = (acc + sumZ (map f l))%Z.
Proof.
  induction l as [| x l IH]; intro acc; simpl.
  - lia.
  - rewrite IH. lia.
Qed.

Lemma avgRating_processBench u b :
  avgRating (processBench u b) =
  match bench_ratings b with
  | Some (r :: rs) => pooledMean (r :: rs)
  | _ => 0
  end.
Proof.
  unfold processBench; cbn [avgRating].
  destruct (bench_ratings b) as [[| r rs] |]; try reflexivity.
  change (0 <? List.length (r :: rs))%nat with true. cbv iota.
  unfold pooledMean. rewrite !fold_left_sum, !Z.add_0_l.
  rewrite plus_IZR, mult_IZR, <- INR_IZR_INZ.
  assert (INR (List.length (r :: rs)) <> 0) as Hn.
  { apply not_0_INR. discriminate. }
  field. exact Hn.
Qed.

(** C3.  The derived average rating is 0 for a record without ratings and
    otherwise the pooled mean, the sum of all view ratings plus the sum of
    all comfort ratings over twice the number of ratings; the ratings
    (1, 1) and (5, 5) average to 3. *)
Theorem avgRating_pooled_mean :
  (forall u b,
     avgRating (processBench u b) =
     match bench_ratings b with
     | Some (r :: rs) => pooledMean (r :: rs)
     | _ => 0
     end) /\
  (forall u i t v la lo c,
     avgRating (processBench u
       (mkBench i t v la lo c (Some [mkRating 1 1; mkRating 5 5]))) = 3).
Proof.
  split; [exact avgRating_processBench |].
  intros. rewrite avgRating_processBench. cbn [bench_ratings].
  unfold pooledMean. simpl. lra.
Qed.

(** ** The scenario of the specification, evaluated *)

Lemma Rleb_false x y : Rleb x y = false <-> y < x.
Proof.
  unfold Rleb. destruct (Rle_dec x y); split; intros; try discriminate; lra.
Qed.

Lemma haversine_a_one_degree :
  haversine_a 0 0 0 1 = sin (PI / 360) * sin (PI / 360).
Proof.
  unfold haversine_a, toRadians.
  replace ((0 - 0) * (PI / 180) / 2) with 0 by field.
  replace (0 * (PI / 180)) with 0 by ring.
  replace ((1 - 0) * (PI / 180) / 2) with (PI / 360) by field.
  rewrite sin_0, cos_0. ring.
Qed.

Lemma calculateDistance_one_degree : calculateDistance 0 0 0 1 = 6371 * (PI / 180).
Proof.
  rewrite (calculateDistance_of_a _ _ _ _ _ haversine_a_one_degree).
  pose proof PI_approx as Hpi.
  assert (0 < sin (PI / 360)) as Hs by (apply sin_gt_0; lra).
  assert (0 < cos (PI / 360)) as Hc by (apply cos_gt_0; lra).
  rewrite sqrt_square by lra.
  replace (1 - sin (PI / 360) * sin (PI / 360)) with (cos (PI / 360) * cos (PI / 360)).
  2:{ pose proof (sin2_cos2 (PI / 360)) as H. unfold Rsqr in H. lra. }
  rewrite sqrt_square by lra.
  rewrite Math_atan2_sin_cos by lra. field.
Qed.

Lemma distance_oceanBench :
  distance (processBench (Some origin) oceanBench) = Some 0.
Proof.
  rewrite distance_processBench. f_equal. apply calculateDistance_same.
Qed.

Lemma distance_forestBench :
  distance (processBench (Some origin) forestBench) = Some (6371 * (PI / 180)).
Proof.
  rewrite distance_processBench. f_equal. apply calculateDistance_one_degree.
Qed.

Lemma forestBench_far : 111 < 6371 * (PI / 180) < 112.
Proof. pose proof PI_approx. lra. Qed.

Lemma passesFilters_noFilters s u m pb :
  passesFilters (noFilters s u m) pb = passesDistance (effectiveMaxDistance m) pb.
Proof.
  unfold passesFilters, matchesText, matchesViewType, noFilters. simpl.
  apply andb_true_r.
Qed.

Lemma filteredInput_noFilters s u m table :
  filteredInput table (noFilters s u m) =
  filter (passesDistance (effectiveMaxDistance m)) (map (processBench u) table).
Proof.
  unfold filteredInput. apply filter_ext. apply passesFilters_noFilters.
Qed.

Lemma passesDistance_oceanBench m :
  0 <= m -> passesDistance (Some m) (processBench (Some origin) oceanBench) = true.
Proof.
  intro Hm. unfold passesDistance. rewrite distance_oceanBench.
  apply Rleb_true. exact Hm.
Qed.

Lemma passesDistance_forestBench m :
  m < 111 -> passesDistance (Some m) (processBench (Some origin) forestBench) = false.
Proof.
  intro Hm. unfold passesDistance. rewrite distance_forestBench.
  apply Rleb_false. pose proof forestBench_far. lra.
Qed.


Lemma byDistance_ocean_forest :
  byDistance (processBench (Some origin) oceanBench)
             (processBench (Some origin) forestBench) < 0.
Proof.
  unfold byDistance. rewrite distance_oceanBench, distance_forestBench. simpl.
  pose proof forestBench_far. lra.
Qed.


(** Omitted [maxDistance], a user location: the forest bench, 111 km
    away, is beyond the default 10 km. *)
Lemma search_scenario_default s :
  search [oceanBench; forestBench] (noFilters s (Some origin) MaxOmitted) =
  [processBench (Some origin) oceanBench].
Proof.
  rewrite search_filteredInput, filteredInput_noFilters.
  cbn [map filter effectiveMaxDistance].
  rewrite passesDistance_oceanBench, passesDistance_forestBench by lra.
  cbn [noFilters sortBy userLocation].
  apply Permutation_length_1_inv. symmetry. apply applySort_perm.
Qed.



(** ** Filters (C1, C2, C4, C5) *)


Lemma filteredInput_set_maxDistance table p m :
  filteredInput table (set_maxDistance (MaxKm m) p) =
  filter (passesDistance (Some m)) (filteredInput table (set_maxDistance MaxNull p)).
Proof.
  unfold filteredInput. rewrite filter_andb. params_simpl.
  apply filter_ext. intro b.
  unfold passesFilters, matchesText, matchesViewType. params_simpl.
  cbn [effectiveMaxDistance]. change (passesDistance None b) with true.
  rewrite andb_true_r, <- !andb_assoc. f_equal. f_equal. apply andb_comm.
Qed.

Lemma filteredInput_set_ratingFilter table p r :
  r <> 0 ->
  filteredInput table (set_ratingFilter (Some r) p) =
  filter (fun b => Rleb r (avgRating b)) (filteredInput table (set_ratingFilter None p)).
Proof.
  intro Hr. unfold filteredInput. rewrite filter_andb. params_simpl.
  apply filter_ext. intro b.
  unfold passesFilters, matchesText, matchesViewType, passesRating. params_simpl.
  destruct (Req_dec_T r 0) as [E | _]; [contradiction |].
  rewrite andb_true_r. reflexivity.
Qed.

Lemma sumZ_nonneg l : Forall (fun z => (0 <= z)%Z) l -> (0 <= sumZ l)%Z.
Proof.
  induction 1 as [| z l Hz _ IH]; simpl; lia.
Qed.

Lemma avgRating_nonneg u b : valid_bench b -> 0 <= avgRating (processBench u b).
Proof.
  intro Hv. rewrite avgRating_processBench. unfold valid_bench in Hv.
  destruct (bench_ratings b) as [[| r rs] |]; try lra.
  unfold pooledMean.
  assert (0 < INR (List.length (r :: rs))) as Hn by (apply lt_0_INR; simpl; lia).
  assert (0 <= sumZ (map view_rating (r :: rs)))%Z as Hview.
  { apply sumZ_nonneg. apply Forall_map. eapply Forall_impl; [| exact Hv].
    intros x [Hx _]. lia. }
  assert (0 <= sumZ (map comfort_rating (r :: rs)))%Z as Hcomfort.
  { apply sumZ_nonneg. apply Forall_map. eapply Forall_impl; [| exact Hv].
    intros x [_ Hx]. lia. }
  apply IZR_le in Hview, Hcomfort.
  apply Rmult_le_pos; [lra |]. left. apply Rinv_0_lt_compat. lra.
Qed.

Lemma avgRating_no_ratings u b :
  ratingsCount (processBench u b) = 0%nat -> avgRating (processBench u b) = 0.
Proof.
  rewrite avgRating_processBench. unfold processBench; cbn [ratingsCount].
  destruct (bench_ratings b) as [[| r rs] |]; try reflexivity. discriminate.
Qed.

Lemma filteredInput_rating_zero table p :
  Forall valid_bench table ->
  filteredInput table (set_ratingFilter (Some 0) p) =
  filter (fun b => Rleb 0 (avgRating b)) (filteredInput table (set_ratingFilter None p)).
Proof.
  intro Hv. rewrite filter_all.
  - unfold filteredInput. params_simpl. apply filter_ext. intro b.
    unfold passesFilters, matchesText, matchesViewType, passesRating. params_simpl.
    destruct (Req_dec_T 0 0) as [_ | N]; [reflexivity | contradiction N; reflexivity].
  - intros pb Hpb. apply filteredInput_In in Hpb. destruct Hpb as [b [Hb ->]].
    apply Rleb_true. apply avgRating_nonneg.
    rewrite Forall_forall in Hv. exact (Hv b Hb).
Qed.

Lemma filteredInput_without_rating_In table p b :
  In b (filteredInput table (set_ratingFilter None p)) <->
  In b (map (processBench (userLocation p)) table) /\
  matchesText p (bench_of b) && matchesViewType p (bench_of b) &&
  passesDistance (effectiveMaxDistance (maxDistance p)) b = true.
Proof.
  unfold filteredInput. rewrite filter_In. params_simpl.
  unfold passesFilters, matchesText, matchesViewType, passesRating. params_simpl.
  rewrite andb_true_r. reflexivity.
Qed.

(** C1, as the code has it.  Without text, category and rating filter,
    [search] returns every record, ordered by [sortBy], when no user
    location is given or when [maxDistance] is [null]; with a user location
    and [maxDistance] left out, the default limit of 10 km applies and the
    records within 10 km are returned. *)
Theorem search_no_filters :
  forall table s,
    (forall m,
       search table (noFilters s None m) = applySort s None (map (processBench None) table) /\
       Permutation (search table (noFilters s None m)) (map (processBench None) table)) /\
    (forall u,
       search table (noFilters s u MaxNull) = applySort s u (map (processBench u) table) /\
       Permutation (search table (noFilters s u MaxNull)) (map (processBench u) table)) /\
    (forall o,
       search table (noFilters s (Some o) MaxOmitted) =
       applySort s (Some o) (filter (withinDistance 10) (map (processBench (Some o)) table))).
Proof.
  intros table s.
  assert (forall m, filteredInput table (noFilters s None m) = map (processBench None) table) as Hnone.
  { intro m. rewrite filteredInput_noFilters. apply filter_all.
    intros pb Hpb. apply in_map_iff in Hpb. destruct Hpb as [b [<- _]].
    unfold passesDistance. rewrite distance_processBench.
    destruct (effectiveMaxDistance m); reflexivity. }
  assert (forall u, filteredInput table (noFilters s u MaxNull) = map (processBench u) table) as Hnull.
  { intro u. rewrite filteredInput_noFilters. apply filter_true. }
  split; [| split].
  - intro m. split.
    + rewrite search_filteredInput, Hnone. reflexivity.
    + rewrite <- (Hnone m). apply search_perm.
  - intro u. split.
    + rewrite search_filteredInput, Hnull. reflexivity.
    + rewrite <- (Hnull u). apply search_perm.
  - intro o. rewrite search_filteredInput, filteredInput_noFilters. params_simpl.
    f_equal. apply filter_ext_in. intros pb Hpb.
    apply in_map_iff in Hpb. destruct Hpb as [b [<- _]]. reflexivity.
Qed.

(** C1 fails as stated: with no filter at all and a user location, the
    forest bench of the scenario, 111 km from the user, is dropped. *)
Lemma search_default_drops_record :
  ids (search [oceanBench; forestBench]
         (noFilters (Some "distance"%string) (Some origin) MaxOmitted)) = ["1"%string] /\
  ~ Permutation
      (search [oceanBench; forestBench]
         (noFilters (Some "distance"%string) (Some origin) MaxOmitted))
      (map (processBench (Some origin)) [oceanBench; forestBench]).
Proof.
  rewrite search_scenario_default. split; [reflexivity |].
  intro H. apply Permutation_length in H. discriminate.
Qed.

(** C2.  With a user location, leaving [maxDistance] out is passing 10: the
    result is what [maxDistance: null] returns, cut to the records within
    10 km; [null] switches the distance filter off, so that membership in
    the result does not depend on the distance; and on the scenario the two
    calls return different results. *)
Theorem maxDistance_omitted_or_null :
  (forall table p o,
     search table (set_userLocation (Some o) (set_maxDistance MaxOmitted p)) =
     search table (set_userLocation (Some o) (set_maxDistance (MaxKm 10) p)) /\
     search table (set_userLocation (Some o) (set_maxDistance MaxOmitted p)) =
     filter (withinDistance 10)
       (search table (set_userLocation (Some o) (set_maxDistance MaxNull p)))) /\
  (forall table p b,
     In b (search table (set_maxDistance MaxNull p)) <->
     In b (map (processBench (userLocation p)) table) /\
     matchesText p (bench_of b) && matchesViewType p (bench_of b) &&
     passesRating (ratingFilter p) b = true) /\
  ids (search [oceanBench; forestBench]
         (noFilters None (Some origin) MaxOmitted)) = ["1"%string] /\
  ids (search [oceanBench; forestBench]
         (noFilters None (Some origin) MaxNull)) = ["1"%string; "2"%string].
Proof.
  split; [| split; [| split]].
  - intros table p o. split; [reflexivity |].
    change (search table (set_userLocation (Some o) (set_maxDistance MaxOmitted p)))
      with (search table (set_maxDistance (MaxKm 10) (set_userLocation (Some o) p))).
    change (search table (set_userLocation (Some o) (set_maxDistance MaxNull p)))
      with (search table (set_maxDistance MaxNull (set_userLocation (Some o) p))).
    rewrite !search_filteredInput, filter_applySort, filteredInput_set_maxDistance.
    params_simpl. f_equal. apply filter_ext_in. intros pb Hpb.
    apply filteredInput_In in Hpb. destruct Hpb as [b [_ ->]]. reflexivity.
  - intros table p b. rewrite search_In. unfold filteredInput.
    rewrite filter_In. params_simpl.
    unfold passesFilters, matchesText, matchesViewType. params_simpl.
    cbn [effectiveMaxDistance]. change (passesDistance None b) with true.
    rewrite andb_true_r. reflexivity.
  - rewrite search_scenario_default. reflexivity.
  - rewrite search_filteredInput, filteredInput_noFilters. reflexivity.
Qed.


(** C4.  With [ratingFilter] a number [r], the result is what the same
    call without rating filter returns, cut to the records whose average
    rating is at least [r] (for [r = 0], which the code takes as no filter,
    because the ratings of the data model are not negative).  A record
    without ratings is therefore dropped as soon as [r > 0], while without a
    rating filter membership does not depend on the ratings. *)
Theorem rating_filter_semantics :
  forall table p r,
    r <> 0 \/ Forall valid_bench table ->
    search table (set_ratingFilter (Some r) p) =
    filter (fun b => Rleb r (avgRating b)) (search table (set_ratingFilter None p)) /\
    (forall b,
       In b (search table (set_ratingFilter (Some r) p)) <->
       In b (search table (set_ratingFilter None p)) /\ avgRating b >= r) /\
    (0 < r ->
     forall b, In b (search table (set_ratingFilter (Some r) p)) ->
               ratingsCount b <> 0%nat) /\
    (forall b,
       In b (search table (set_ratingFilter None p)) <->
       In b (map (processBench (userLocation p)) table) /\
       matchesText p (bench_of b) && matchesViewType p (bench_of b) &&
       passesDistance (effectiveMaxDistance (maxDistance p)) b = true).
Proof.
  intros table p r Hr.
  assert (search table (set_ratingFilter (Some r) p) =
          filter (fun b => Rleb r (avgRating b)) (search table (set_ratingFilter None p))) as E.
  { rewrite !search_filteredInput, filter_applySort. params_simpl. f_equal.
    destruct (Req_dec_T r 0) as [-> | Hn].
    - destruct Hr as [Hr | Hv]; [contradiction Hr; reflexivity |].
      apply filteredInput_rating_zero. exact Hv.
    - apply filteredInput_set_ratingFilter. exact Hn. }
  assert (forall b,
            In b (search table (set_ratingFilter (Some r) p)) <->
            In b (search table (set_ratingFilter None p)) /\ avgRating b >= r) as Hin.
  { intro b. rewrite E, filter_In, Rleb_true. split; intros [H1 H2]; split; auto; lra. }
  split; [exact E | split; [exact Hin | split]].
  - intros Hpos b Hb Hcount. apply Hin in Hb. destruct Hb as [Hb Havg].
    apply search_In, filteredInput_In in Hb. destruct Hb as [b0 [_ ->]].
    rewrite (avgRating_no_ratings _ _ Hcount) in Havg. lra.
  - intro b. rewrite search_In. apply filteredInput_without_rating_In.
Qed.

Lemma avgRating_oceanBench u : avgRating (processBench u oceanBench) = 0.
Proof. reflexivity. Qed.

Lemma avgRating_forestBench u : avgRating (processBench u forestBench) = 5.
Proof.
  rewrite avgRating_processBench. unfold pooledMean. simpl. lra.
Qed.

(** The scenario with a minimum rating of 0.01: the ocean bench, which has
    no ratings, is dropped; without rating filter it is returned. *)
Lemma rating_filter_semantics_witness :
  ids (search [oceanBench; forestBench]
         (set_ratingFilter (Some (1 / 100)) (noFilters None None MaxNull))) =
    ["2"%string] /\
  ids (search [oceanBench; forestBench]
         (set_ratingFilter None (noFilters None None MaxNull))) =
    ["1"%string; "2"%string].
Proof.
  assert (Forall valid_bench [oceanBench; forestBench]) as Hvalid.
  { repeat constructor; simpl; lia. }
  destruct (rating_filter_semantics [oceanBench; forestBench]
              (noFilters None None MaxNull) (1 / 100) (or_intror Hvalid))
    as [E _].
  rewrite E.
  change (set_ratingFilter None (noFilters None None MaxNull))
    with (noFilters None None MaxNull).
  rewrite search_filteredInput, filteredInput_noFilters.
  cbn [map filter effectiveMaxDistance passesDistance noFilters sortBy userLocation applySort].
  rewrite avgRating_oceanBench, avgRating_forestBench.
  replace (Rleb (1 / 100) 0) with false by (symmetry; apply Rleb_false; lra).
  replace (Rleb (1 / 100) 5) with true by (symmetry; apply Rleb_true; lra).
  split; reflexivity.
Defined.

(** ** Sorting (C6, C7, C8) *)













(** ** Further properties of the specification *)


(** No records, no results. *)
Theorem search_empty : forall p, search [] p = [].
Proof.
  intro p. apply Permutation_nil. symmetry. apply (search_perm [] p).
Qed.

(** [maxDistance: 0] keeps the records at distance exactly 0, and those of
    null distance. *)
Theorem search_maxDistance_zero :
  forall table p,
    search table (set_maxDistance (MaxKm 0) p) =
    filter (fun b => match distance b with Some d => Reqb d 0 | None => true end)
      (search table (set_maxDistance MaxNull p)).
Proof.
  intros table p.
  rewrite !search_filteredInput, filter_applySort, filteredInput_set_maxDistance.
  params_simpl. f_equal. apply filter_ext_in. intros pb Hpb.
  apply filteredInput_In in Hpb. destruct Hpb as [b [_ ->]]. params_simpl.
  unfold passesDistance. rewrite distance_processBench.
  destruct (userLocation p) as [o |]; [| reflexivity].
  pose proof (calculateDistance_range (loc_latitude o) (loc_longitude o)
                (latitude b) (longitude b)) as [Hd _].
  unfold Rleb, Reqb.
  destruct (Rle_dec _ 0), (Req_dec_T _ 0); try reflexivity; lra.
Qed.

(** Every result is a row of the table with its derived fields, which
    depend on the row and the user location only. *)
Theorem search_results_are_processed_rows :
  forall table p,
    Forall (fun b => In (bench_of b) table /\ b = processBench (userLocation p) (bench_of b))
      (search table p).
Proof.
  intros table p. apply Forall_forall. intros b Hb.
  apply search_In, filteredInput_In in Hb. destruct Hb as [row [Hrow ->]].
  split; [exact Hrow | reflexivity].
Qed.

(** * The other services *)

(** ** Objects used as dictionaries *)

Lemma obj_get_set_same {V : Type} (o : jsObject V) k v :
  obj_get (obj_set o k v) k = Some v.
Proof.
  induction o as [| [k' v'] o IH]; simpl.
  - rewrite String.eqb_refl. reflexivity.
  - destruct (String.eqb k' k) eqn:E; simpl; rewrite E; [reflexivity | exact IH].
Qed.

Lemma obj_get_set_other {V : Type} (o : jsObject V) k k' v :
  k' <> k -> obj_get (obj_set o k v) k' = obj_get o k'.
Proof.
  intro Hne. induction o as [| [k0 v0] o IH]; simpl.
  - destruct (String.eqb_spec k k'); [congruence | reflexivity].
  - destruct (String.eqb_spec k0 k) as [-> | Hk]; simpl.
    + destruct (String.eqb_spec k k'); [congruence | reflexivity].
    + destruct (String.eqb k0 k'); [reflexivity | exact IH].
Qed.

Lemma obj_get_set {V : Type} (o : jsObject V) k k' v :
  obj_get (obj_set o k v) k' = if String.eqb k k' then Some v else obj_get o k'.
Proof.
  destruct (String.eqb_spec k k') as [-> | Hne].
  - apply obj_get_set_same.
  - apply obj_get_set_other. congruence.
Qed.

Lemma includes_In l x : includes l x = true <-> In x l.
Proof.
  unfold includes. rewrite existsb_exists. split.
  - intros [y [Hy E]]. apply String.eqb_eq in E. subst. exact Hy.
  - intro H. exists x. split; [exact H | apply String.eqb_refl].
Qed.

(** ** [favoriteService]: the batch requests *)

Lemma fold_obj_set_const {V : Type} (v : V) ks : forall (o : jsObject V) k,
  obj_get (fold_left (fun o i => obj_set o i v) ks o) k =
  if includes ks k then Some v else obj_get o k.
Proof.
  induction ks as [| i ks IH]; intros o k; simpl; [reflexivity |].
  rewrite IH, obj_get_set. rewrite (String.eqb_sym k i).
  destruct (String.eqb i k); simpl; [| reflexivity].
  destruct (includes ks k); reflexivity.
Qed.

Lemma fold_obj_set_fun {V : Type} (g : string -> V) ks : forall (o : jsObject V) k,
  obj_get (fold_left (fun o i => obj_set o i (g i)) ks o) k =
  if includes ks k then Some (g k) else obj_get o k.
Proof.
  induction ks as [| i ks IH]; intros o k; simpl; [reflexivity |].
  rewrite IH, obj_get_set. rewrite (String.eqb_sym k i).
  destruct (String.eqb_spec i k) as [-> | Hne]; simpl; [| reflexivity].
  destruct (includes ks k); reflexivity.
Qed.

Lemma obj_get_increment counts k k' :
  obj_get (obj_increment counts k) k' =
  if String.eqb k k'
  then Some (match obj_get counts k with Some n => n | None => 0 end + 1)%nat
  else obj_get counts k'.
Proof. unfold obj_increment. apply obj_get_set. Qed.

Lemma fold_obj_increment (data : list favorite) : forall counts k,
  obj_get (fold_left (fun counts f => obj_increment counts (fav_bench_id f)) data counts) k =
  match obj_get counts k, favoriteCount data k with
  | None, O => None
  | None, n => Some n
  | Some m, n => Some (m + n)%nat
  end.
Proof.
  unfold favoriteCount.
  induction data as [| f data IH]; intros counts k; simpl.
  - destruct (obj_get counts k); [f_equal; lia | reflexivity].
  - rewrite IH, obj_get_increment.
    destruct (String.eqb_spec (fav_bench_id f) k) as [-> | Hne]; simpl.
    + destruct (obj_get counts k); f_equal; lia.
    + destruct (obj_get counts k); reflexivity.
Qed.

Lemma favoriteCount_in_filter favorites benchIds k :
  favoriteCount (filter (fun f => includes benchIds (fav_bench_id f)) favorites) k =
  if includes benchIds k then favoriteCount favorites k else O.
Proof.
  unfold favoriteCount. rewrite filter_andb.
  destruct (includes benchIds k) eqn:Hk.
  - f_equal. apply filter_ext. intro f.
    destruct (String.eqb_spec (fav_bench_id f) k) as [-> | _].
    + rewrite Hk. reflexivity.
    + apply andb_false_r.
  - rewrite filter_none; [reflexivity |]. intros f _.
    destruct (String.eqb_spec (fav_bench_id f) k) as [-> | _].
    + rewrite Hk. reflexivity.
    + apply andb_false_r.
Qed.

Lemma getCountBatch_get favorites benchIds k :
  obj_get (favoriteService_getCountBatch favorites benchIds) k =
  if includes benchIds k then Some (favoriteCount favorites k) else None.
Proof.
  unfold favoriteService_getCountBatch.
  destruct benchIds as [| i ids]; [reflexivity |].
  set (benchIds := i :: ids).
  rewrite fold_obj_increment, fold_obj_set_const, favoriteCount_in_filter.
  destruct (includes benchIds k); reflexivity.
Qed.

Lemma getStatusBatch_get favorites benchIds userId k :
  obj_get (favoriteService_getStatusBatch favorites benchIds userId) k =
  match truthyString userId with
  | Some u => if includes benchIds k then Some (isFavorited favorites u k) else None
  | None => None
  end.
Proof.
  unfold favoriteService_getStatusBatch.
  destruct benchIds as [| i ids].
  - destruct (truthyString userId); reflexivity.
  - set (benchIds := i :: ids). destruct (truthyString userId) as [u |]; [| reflexivity].
    rewrite fold_obj_set_fun. simpl obj_get.
    destruct (includes benchIds k) eqn:Hk; [| reflexivity].
    f_equal. unfold isFavorited.
    apply eq_true_iff_eq. rewrite includes_In, in_map_iff, existsb_exists.
    split.
    + intros [f [<- Hf]]. apply filter_In in Hf. destruct Hf as [Hf Hm].
      apply andb_true_iff in Hm. destruct Hm as [Hu _].
      exists f. split; [exact Hf |]. rewrite Hu, String.eqb_refl. reflexivity.
    + intros [f [Hf Hm]]. apply andb_true_iff in Hm. destruct Hm as [Hu Hb].
      apply String.eqb_eq in Hb. exists f. split; [exact Hb |].
      apply filter_In. split; [exact Hf |]. rewrite Hu, Hb, Hk. reflexivity.
Qed.

Lemma getBatchData_counts_fold userId (data : list favorite) :
  forall (sc : jsObject bool * jsObject nat),
  snd (fold_left
         (fun (sc : jsObject bool * jsObject nat) f =>
            let counts := obj_increment (snd sc) (fav_bench_id f) in
            let statuses :=
              match truthyString userId with
              | Some u =>
                  if String.eqb (fav_user_id f) u
                  then obj_set (fst sc) (fav_bench_id f) true
                  else fst sc
              | None => fst sc
              end in
            (statuses, counts))
         data sc) =
  fold_left (fun counts f => obj_increment counts (fav_bench_id f)) data (snd sc).
Proof.
  induction data as [| f data IH]; intro sc; simpl; [reflexivity |].
  rewrite IH. reflexivity.
Qed.

Lemma getBatchData_statuses_fold userId (data : list favorite) :
  forall (sc : jsObject bool * jsObject nat) k,
  obj_get
    (fst (fold_left
            (fun (sc : jsObject bool * jsObject nat) f =>
               let counts := obj_increment (snd sc) (fav_bench_id f) in
               let statuses :=
                 match truthyString userId with
                 | Some u =>
                     if String.eqb (fav_user_id f) u
                     then obj_set (fst sc) (fav_bench_id f) true
                     else fst sc
                 | None => fst sc
                 end in
               (statuses, counts))
            data sc)) k =
  match truthyString userId with
  | Some u => if isFavorited data u k then Some true else obj_get (fst sc) k
  | None => obj_get (fst sc) k
  end.
Proof.
  unfold isFavorited.
  induction data as [| f data IH]; intros sc k; simpl.
  - destruct (truthyString userId); reflexivity.
  - rewrite IH. destruct (truthyString userId) as [u |]; simpl; [| reflexivity].
    destruct (existsb _ data) eqn:Hrest.
    + rewrite orb_true_r. reflexivity.
    + rewrite orb_false_r.
      destruct (String.eqb (fav_user_id f) u); simpl; [| reflexivity].
      rewrite obj_get_set. reflexivity.
Qed.

Lemma getBatchData_init_fold (benchIds : list string) :
  forall (sc : jsObject bool * jsObject nat),
  fold_left
    (fun (sc : jsObject bool * jsObject nat) i =>
       (obj_set (fst sc) i false, obj_set (snd sc) i 0%nat))
    benchIds sc =
  (fold_left (fun o i => obj_set o i false) benchIds (fst sc),
   fold_left (fun o i => obj_set o i 0%nat) benchIds (snd sc)).
Proof.
  induction benchIds as [| i ids IH]; intros [s c]; simpl; [reflexivity |].
  rewrite IH. reflexivity.
Qed.

Lemma isFavorited_in_filter favorites benchIds u k :
  isFavorited (filter (fun f => includes benchIds (fav_bench_id f)) favorites) u k =
  includes benchIds k && isFavorited favorites u k.
Proof.
  unfold isFavorited. apply eq_true_iff_eq.
  rewrite andb_true_iff, !existsb_exists. split.
  - intros [f [Hf Hm]]. apply filter_In in Hf. destruct Hf as [Hf Hin].
    pose proof Hm as Hm'. apply andb_true_iff in Hm'. destruct Hm' as [_ Hb].
    apply String.eqb_eq in Hb. subst k. split; [exact Hin |].
    exists f. split; assumption.
  - intros [Hin [f [Hf Hm]]]. exists f. split; [| exact Hm].
    apply filter_In. split; [exact Hf |].
    apply andb_true_iff in Hm. destruct Hm as [_ Hb].
    apply String.eqb_eq in Hb. subst k. exact Hin.
Qed.

Lemma getBatchData_counts favorites benchIds userId :
  counts (favoriteService_getBatchData favorites benchIds userId) =
  favoriteService_getCountBatch favorites benchIds.
Proof.
  unfold favoriteService_getBatchData, favoriteService_getCountBatch.
  destruct benchIds as [| i ids]; [reflexivity |].
  cbn [counts]. rewrite getBatchData_counts_fold, getBatchData_init_fold. reflexivity.
Qed.

Lemma getBatchData_statuses_get favorites benchIds userId k :
  obj_get (statuses (favoriteService_getBatchData favorites benchIds userId)) k =
  if includes benchIds k
  then Some match truthyString userId with
            | Some u => isFavorited favorites u k
            | None => false
            end
  else None.
Proof.
  unfold favoriteService_getBatchData.
  destruct benchIds as [| i ids]; [reflexivity |].
  set (benchIds := i :: ids).
  cbn [statuses]. rewrite getBatchData_statuses_fold, getBatchData_init_fold.
  cbn [fst]. rewrite fold_obj_set_const. simpl obj_get.
  destruct (truthyString userId) as [u |].
  - rewrite isFavorited_in_filter.
    destruct (includes benchIds k), (isFavorited favorites u k); reflexivity.
  - reflexivity.
Qed.

(** [getCountBatch] reports, for each of the benches asked for and for no
    other key, the number of its favorites. *)
Theorem favorite_counts_per_bench :
  forall favorites benchIds k,
    obj_get (favoriteService_getCountBatch favorites benchIds) k =
    if includes benchIds k then Some (favoriteCount favorites k) else None.
Proof. exact getCountBatch_get. Qed.

(** [getStatusBatch] answers nothing without a user; with one it reports,
    for each of the benches asked for and for no other key, whether the user
    has a favorite row for it. *)
Theorem favorite_status_per_bench :
  forall favorites benchIds userId k,
    obj_get (favoriteService_getStatusBatch favorites benchIds userId) k =
    match truthyString userId with
    | Some u => if includes benchIds k then Some (isFavorited favorites u k) else None
    | None => None
    end.
Proof. exact getStatusBatch_get. Qed.

(** [getBatchData] is the two batch requests in one: its counts are the
    object [getCountBatch] returns, and for a user its statuses are those of
    [getStatusBatch]; without a user it reports every bench asked for as
    not favorited, where [getStatusBatch] returns the empty object. *)
Theorem favorite_batch_data_agrees :
  forall favorites benchIds,
    (forall userId,
       counts (favoriteService_getBatchData favorites benchIds userId) =
       favoriteService_getCountBatch favorites benchIds) /\
    (forall c u k,
       obj_get (statuses (favoriteService_getBatchData favorites benchIds
                            (Some (String c u)))) k =
       obj_get (favoriteService_getStatusBatch favorites benchIds (Some (String c u))) k) /\
    (forall k,
       obj_get (statuses (favoriteService_getBatchData favorites benchIds None)) k =
         (if includes benchIds k then Some false else None) /\
       obj_get (favoriteService_getStatusBatch favorites benchIds None) k = None).
Proof.
  intros favorites benchIds. split; [intro; apply getBatchData_counts |]. split.
  - intros c u k. rewrite getBatchData_statuses_get, getStatusBatch_get. reflexivity.
  - intro k. rewrite getBatchData_statuses_get, getStatusBatch_get. split; reflexivity.
Qed.

(** ** Mentions *)

Example extractMentions_example :
  extractMentions "hi @ana_1, meet @@bob! mail a@b.c @" =
  ["ana_1"; "bob"; "b"]%string.
Proof. reflexivity. Qed.

Lemma allWordChars_app s t :
  allWordChars (s ++ t) = allWordChars s && allWordChars t.
Proof.
  induction s as [| c s IH]; simpl; [reflexivity |].
  rewrite IH. apply andb_assoc.
Qed.

Lemma isWordChar_at : isWordChar "@" = false.
Proof. reflexivity. Qed.

Lemma eqb_at_not_word c : Ascii.eqb c "@" = true -> isWordChar c = false.
Proof. intro H. apply Ascii.eqb_eq in H. subst. reflexivity. Qed.

(** Every name found is a run of word characters, and not the empty one. *)
Lemma scanMentions_names text : forall pending,
  match pending with Some name => allWordChars name = true | None => True end ->
  Forall (fun m => m <> EmptyString /\ allWordChars m = true) (scanMentions pending text).
Proof.
  induction text as [| c text IH]; intros pending Hp; simpl.
  - destruct pending as [[| c0 name] |]; constructor; [| constructor].
    split; [discriminate | exact Hp].
  - destruct pending as [name |].
    + destruct (isWordChar c) eqn:Hc.
      * apply IH. rewrite allWordChars_app, Hp. simpl. rewrite Hc. reflexivity.
      * assert (Forall (fun m => m <> EmptyString /\ allWordChars m = true)
                  (scanMentions (if Ascii.eqb c "@" then Some EmptyString else None) text))
          as Hrest.
        { apply IH. destruct (Ascii.eqb c "@"); [reflexivity | exact I]. }
        destruct name as [| c0 name]; [exact Hrest |].
        constructor; [| exact Hrest]. split; [discriminate | exact Hp].
    + apply IH. destruct (Ascii.eqb c "@"); [reflexivity | exact I].
Qed.

Lemma scanMentions_count text : forall pending,
  (List.length (scanMentions pending text) <=
   countAt text + match pending with Some _ => 1 | None => 0 end)%nat.
Proof.
  induction text as [| c text IH]; intro pending; simpl.
  - destruct pending as [[| c0 name] |]; simpl; lia.
  - destruct pending as [name |].
    + destruct (isWordChar c) eqn:Hc.
      * specialize (IH (Some (name ++ String c EmptyString)%string)). simpl in IH.
        destruct (Ascii.eqb c "@") eqn:Hat; [| lia].
        apply eqb_at_not_word in Hat. congruence.
      * specialize (IH (if Ascii.eqb c "@" then Some EmptyString else None)).
        destruct name as [| c0 name]; destruct (Ascii.eqb c "@"); simpl in *; lia.
    + specialize (IH (if Ascii.eqb c "@" then Some EmptyString else None)).
      destruct (Ascii.eqb c "@"); simpl in *; lia.
Qed.

(** A run of word characters behind an open [@] is read to its end. *)
Lemma scanMentions_run u : forall name c rest,
  allWordChars u = true -> isWordChar c = false ->
  scanMentions (Some name) (u ++ String c rest) =
  match (name ++ u)%string with
  | EmptyString => scanMentions (if Ascii.eqb c "@" then Some EmptyString else None) rest
  | String _ _ =>
      (name ++ u)%string ::
      scanMentions (if Ascii.eqb c "@" then Some EmptyString else None) rest
  end.
Proof.
  induction u as [| d u IH]; intros name c rest Hu Hc; simpl.
  - rewrite Hc. replace (name ++ "")%string with name.
    + reflexivity.
    + clear. induction name as [| x name IH]; simpl; [reflexivity | f_equal; exact IH].
  - simpl in Hu. apply andb_true_iff in Hu. destruct Hu as [Hd Hu].
    rewrite Hd, IH by assumption.
    replace ((name ++ String d "") ++ u)%string with (name ++ String d u)%string.
    + reflexivity.
    + clear. induction name as [| x name IH]; simpl; [reflexivity | f_equal; exact IH].
Qed.

Lemma scanMentions_run_end u : forall name,
  allWordChars u = true ->
  scanMentions (Some name) u =
  match (name ++ u)%string with
  | EmptyString => []
  | String _ _ => [(name ++ u)%string]
  end.
Proof.
  induction u as [| d u IH]; intros name Hu; simpl.
  - replace (name ++ "")%string with name.
    + destruct name; reflexivity.
    + clear. induction name as [| x name IH]; simpl; [reflexivity | f_equal; exact IH].
  - simpl in Hu. apply andb_true_iff in Hu. destruct Hu as [Hd Hu].
    rewrite Hd, IH by assumption.
    replace ((name ++ String d "") ++ u)%string with (name ++ String d u)%string.
    + reflexivity.
    + clear. induction name as [| x name IH]; simpl; [reflexivity | f_equal; exact IH].
Qed.

Lemma validUsername_word s :
  validUsername s = true -> s <> EmptyString /\ allWordChars s = true.
Proof.
  unfold validUsername. intro H. apply andb_true_iff in H. destruct H as [_ H].
  destruct s; [discriminate |]. split; [discriminate | exact H].
Qed.

(** What the loop over [/@(\w+)/g] finds: names that are runs of word
    characters and not empty, and no more names than the text has [@]. *)
Theorem extractMentions_names :
  forall text,
    Forall (fun m => m <> EmptyString /\ allWordChars m = true) (extractMentions text) /\
    (List.length (extractMentions text) <= countAt text)%nat.
Proof.
  intro text. split.
  - apply scanMentions_names. exact I.
  - pose proof (scanMentions_count text None) as H. simpl in H.
    unfold extractMentions. lia.
Qed.

(** A user name that the sign-up rules accept (3 to 20 letters, digits and
    underscores) is read back from its mention: on its own, and in front of
    a space with the rest of a comment behind it. *)
Theorem mention_of_username_round_trip :
  forall name,
    validUsername name = true ->
    extractMentions ("@" ++ name) = [name] /\
    forall rest,
      extractMentions ("@" ++ name ++ " " ++ rest) = name :: extractMentions rest.
Proof.
  intros name Hv. apply validUsername_word in Hv. destruct Hv as [Hne Hw].
  unfold extractMentions. split.
  - simpl. rewrite (scanMentions_run_end name EmptyString Hw). simpl.
    destruct name; [contradiction Hne; reflexivity | reflexivity].
  - intro rest. simpl.
    change (name ++ String " " rest)%string with (name ++ String " " rest)%string.
    rewrite (scanMentions_run name EmptyString " " rest Hw eq_refl). simpl.
    destruct name; [contradiction Hne; reflexivity | reflexivity].
Qed.

Lemma mention_of_username_round_trip_witness :
  extractMentions "@ana_1" = ["ana_1"%string] /\
  extractMentions "@ana_1 see @bob" = ["ana_1"%string; "bob"%string].
Proof.
  destruct (mention_of_username_round_trip "ana_1" eq_refl) as [H1 H2].
  split; [exact H1 | exact (H2 "see @bob"%string)].
Defined.

Lemma createMentionNotifications_eq profiles text actorId benchId commentId :
  mentionService_createMentionNotifications profiles text actorId benchId commentId =
  map (fun user =>
         mkNotification (profile_id user) actorId "mention" (Some benchId) commentId None)
      (filter (fun p => includes (extractMentions text) (username p) &&
                        negb (String.eqb (profile_id p) actorId))
              profiles).
Proof.
  unfold mentionService_createMentionNotifications.
  destruct (extractMentions text) as [| m ms] eqn:Hm.
  - rewrite filter_none; [reflexivity |]. intros p _. reflexivity.
  - rewrite <- filter_andb.
    destruct (filter (fun p => includes (m :: ms) (username p)) profiles); reflexivity.
Qed.

(** [createMentionNotifications] inserts one row for each profile whose
    user name is mentioned in the text, the author of the text left out:
    nobody is notified of a mention by themself, and a user mentioned
    several times is notified once. *)
Theorem mention_notifications :
  forall profiles text actorId benchId commentId,
    mentionService_createMentionNotifications profiles text actorId benchId commentId =
      map (fun user =>
             mkNotification (profile_id user) actorId "mention" (Some benchId) commentId None)
          (filter (fun p => includes (extractMentions text) (username p) &&
                            negb (String.eqb (profile_id p) actorId))
                  profiles) /\
    Forall (fun n => n_user_id n <> actorId /\ n_actor_id n = actorId)
      (mentionService_createMentionNotifications profiles text actorId benchId commentId) /\
    (NoDup (map profile_id profiles) ->
     NoDup (map n_user_id
              (mentionService_createMentionNotifications profiles text actorId benchId
                 commentId))).
Proof.
  intros profiles text actorId benchId commentId.
  rewrite createMentionNotifications_eq. split; [reflexivity |]. split.
  - apply Forall_forall. intros n Hn. apply in_map_iff in Hn.
    destruct Hn as [p [<- Hp]]. apply filter_In in Hp. destruct Hp as [_ Hp].
    apply andb_true_iff in Hp. destruct Hp as [_ Hp]. apply negb_true_iff in Hp.
    apply String.eqb_neq in Hp. split; [exact Hp | reflexivity].
  - intro Hnd. rewrite map_map. cbn [n_user_id].
    induction profiles as [| p ps IH]; simpl; [constructor |].
    inversion Hnd as [| ? ? Hnotin Hnd']; subst.
    destruct (includes (extractMentions text) (username p) &&
              negb (String.eqb (profile_id p) actorId)); simpl.
    + constructor; [| apply IH; exact Hnd'].
      intro Hin. apply Hnotin. apply in_map_iff in Hin.
      destruct Hin as [q [Eq Hq]]. apply filter_In in Hq. destruct Hq as [Hq _].
      apply in_map_iff. exists q. split; assumption.
    + apply IH. exact Hnd'.
Qed.

Lemma mention_notifications_witness :
  map n_user_id
    (mentionService_createMentionNotifications
       [mkProfile "u1" "ana"; mkProfile "u2" "bob"; mkProfile "u3" "cy"]
       "@bob @ana and @bob again" "u1" "b1" (Some "c1"%string)) = ["u2"%string].
Proof.
  destruct (mention_notifications
              [mkProfile "u1" "ana"; mkProfile "u2" "bob"; mkProfile "u3" "cy"]
              "@bob @ana and @bob again" "u1" "b1" (Some "c1"%string)) as [E _].
  rewrite E. reflexivity.
Defined.

(** ** Validation *)

Lemma Rltb_true x y : Rltb x y = true <-> x < y.
Proof.
  unfold Rltb. rewrite negb_true_iff, Rleb_false. reflexivity.
Qed.

Lemma Rltb_false x y : Rltb x y = false <-> y <= x.
Proof.
  unfold Rltb. rewrite negb_false_iff, Rleb_true. reflexivity.
Qed.

Lemma Int_part_IZR z : Int_part (IZR z) = z.
Proof.
  unfold Int_part.
  assert (up (IZR z) = (z + 1)%Z) as ->.
  { symmetry. apply tech_up; rewrite plus_IZR; lra. }
  lia.
Qed.

Lemma isInteger_true x : isInteger x = true <-> exists z, x = IZR z.
Proof.
  unfold isInteger. rewrite Reqb_true. split.
  - intro H. exists (Int_part x). symmetry. exact H.
  - intros [z ->]. rewrite Int_part_IZR. reflexivity.
Qed.

Lemma check_nil failed message : check failed message = [] <-> failed = false.
Proof. unfold check. destruct failed; split; intro H; try reflexivity; discriminate. Qed.

Lemma atField_nil name messages : atField name messages = [] <-> messages = [].
Proof.
  unfold atField. destruct messages; simpl; split; intro H; try reflexivity; discriminate.
Qed.

Lemma app_nil_iff {A : Type} (l1 l2 : list A) : l1 ++ l2 = [] <-> l1 = [] /\ l2 = [].
Proof.
  split.
  - apply app_eq_nil.
  - intros [-> ->]. reflexivity.
Qed.

Lemma latitudeSchema_ok x : latitudeSchema x = [] <-> -90 <= x <= 90.
Proof.
  unfold latitudeSchema. rewrite app_nil_iff, !check_nil, !Rltb_false. tauto.
Qed.

Lemma longitudeSchema_ok x : longitudeSchema x = [] <-> -180 <= x <= 180.
Proof.
  unfold longitudeSchema. rewrite app_nil_iff, !check_nil, !Rltb_false. tauto.
Qed.

Lemma ratingValueSchema_ok x :
  ratingValueSchema x = [] <-> exists z, x = IZR z /\ (1 <= z <= 5)%Z.
Proof.
  unfold ratingValueSchema.
  rewrite !app_nil_iff, !check_nil, !Rltb_false, negb_false_iff, isInteger_true.
  split.
  - intros [[z ->] [H1 H5]]. exists z. split; [reflexivity |].
    split; apply le_IZR; assumption.
  - intros [z [-> [H1 H5]]]. split; [exists z; reflexivity |].
    split; apply IZR_le; assumption.
Qed.

Lemma parsed_success {T : Type} errors (data d : T) :
  parsed errors data = ParseSuccess d <-> errors = [] /\ data = d.
Proof.
  unfold parsed. destruct errors; split.
  - intro H. injection H as ->. split; reflexivity.
  - intros [_ ->]. reflexivity.
  - discriminate.
  - intros [H _]. discriminate.
Qed.

Lemma validateOrThrow_returns {I O : Type} (schema : I -> safeParseResult O) data d :
  validateOrThrow schema data = Returns d <-> schema data = ParseSuccess d.
Proof.
  unfold validateOrThrow, validate. destruct (schema data); split; intro H;
    try discriminate; congruence.
Qed.

Lemma validateOrThrow_throws {I O : Type} (schema : I -> safeParseResult O) data message :
  validateOrThrow schema data = Throws message ->
  (forall d, schema data <> ParseSuccess d) /\
  startsWith message "Validation failed: " = true.
Proof.
  unfold validateOrThrow, validate. destruct (schema data) as [errors | d]; intro H.
  - injection H as <-. split; [discriminate | reflexivity].
  - discriminate.
Qed.

(** The four functions of [validate.js] agree on what is valid. *)
Lemma validate_family {I O : Type} (schema : I -> safeParseResult O) data :
  (isValid schema data = true <-> exists d, validate schema data = Valid d) /\
  (isValid schema data = true <-> getValidationError schema data = None) /\
  (isValid schema data = true <-> exists d, validateOrThrow schema data = Returns d).
Proof.
  unfold isValid, getValidationError, validateOrThrow, validate.
  destruct (schema data) as [errors | d].
  - repeat split; try discriminate; intros [d H]; discriminate.
  - repeat split; intros _; try reflexivity; exists d; reflexivity.
Qed.

(** *** [trim] *)









(** *** The validated writes *)

Lemma optionalMaxLength_ok limit message val :
  optionalMaxLength limit message val = [] <-> optionalAtMost limit val.
Proof.
  unfold optionalMaxLength, optionalAtMost. destruct val as [s |]; [| tauto].
  rewrite check_nil, Nat.ltb_ge. reflexivity.
Qed.

Lemma benchCreateSchema_ok invalidEnumMessage b d :
  benchCreateSchema invalidEnumMessage b = ParseSuccess d <->
  benchInputOk b /\
  d = mkBenchInput (trim (bi_title b)) (trimOrNull (bi_description b))
        (bi_latitude b) (bi_longitude b) (bi_viewType b)
        (trimOrNull (bi_accessibilityNotes b)).
Proof.
  unfold benchCreateSchema, benchInputOk, viewTypeSchema.
  rewrite parsed_success, !app_nil_iff, !atField_nil, !app_nil_iff, !check_nil,
    !optionalMaxLength_ok, latitudeSchema_ok, longitudeSchema_ok,
    negb_false_iff, includes_In, !Nat.ltb_ge.
  intuition (try lia; try congruence).
Qed.


Lemma coordinatesSchema_ok c d :
  coordinatesSchema c = ParseSuccess d <->
  (-90 <= c_latitude c <= 90 /\ -180 <= c_longitude c <= 180) /\ d = c.
Proof.
  unfold coordinatesSchema.
  rewrite parsed_success, app_nil_iff, !atField_nil, latitudeSchema_ok, longitudeSchema_ok.
  intuition congruence.
Qed.

(** [benchService.getNearby] asks the backend exactly for a latitude in
    [-90, 90] and a longitude in [-180, 180], with the radius given or
    5000 metres, and returns its rows (none for an answer without data);
    for other coordinates it throws a validation error. *)
Theorem getNearby_validates :
  forall get_nearby_benches latitude longitude radiusMeters,
    match benchService_getNearby get_nearby_benches latitude longitude radiusMeters with
    | Returns rows =>
        (-90 <= latitude <= 90 /\ -180 <= longitude <= 180) /\
        rows = match get_nearby_benches latitude longitude
                       (match radiusMeters with Some r => r | None => 5000 end) with
               | Some data => data
               | None => []
               end
    | Throws message =>
        ~ (-90 <= latitude <= 90 /\ -180 <= longitude <= 180) /\
        startsWith message "Validation failed: " = true
    end.
Proof.
  intros rpc latitude longitude radiusMeters. unfold benchService_getNearby.
  destruct (validateOrThrow coordinatesSchema (mkCoordinates latitude longitude))
    as [message | d] eqn:E.
  - apply validateOrThrow_throws in E. destruct E as [Hno Hprefix].
    split; [| exact Hprefix]. intro Hok.
    apply (Hno (mkCoordinates latitude longitude)).
    apply coordinatesSchema_ok. split; [exact Hok | reflexivity].
  - apply validateOrThrow_returns, coordinatesSchema_ok in E. destruct E as [Hok ->].
    cbn [c_latitude c_longitude].
    destruct (rpc latitude longitude _); split; try exact Hok; reflexivity.
Qed.

Lemma ratingSchema_ok r d :
  ratingSchema r = ParseSuccess d <->
  (exists v c, ri_viewRating r = IZR v /\ ri_comfortRating r = IZR c /\
               valid_rating (mkRating v c)) /\ d = r.
Proof.
  unfold ratingSchema, valid_rating. cbn [view_rating comfort_rating].
  rewrite parsed_success, app_nil_iff, !atField_nil, !ratingValueSchema_ok.
  split.
  - intros [[[v [Hv Hvr]] [c [Hc Hcr]]] ->]. split; [| reflexivity].
    exists v, c. tauto.
  - intros [[v [c [Hv [Hc [Hvr Hcr]]]]] ->]. split; [| reflexivity].
    split; [exists v | exists c]; tauto.
Qed.

(** [ratingService.upsert] hands a rating to the backend exactly when both
    values are whole numbers from 1 to 5, and as they were given; for other
    values it throws a validation error.  So the ratings written through it
    are ratings of the data model. *)
Theorem rating_upsert_validates :
  forall benchId userId viewRating comfortRating,
    match ratingService_upsert benchId userId viewRating comfortRating with
    | Returns row =>
        row = mkRatingUpsert benchId userId viewRating comfortRating /\
        exists v c, viewRating = IZR v /\ comfortRating = IZR c /\
                    valid_rating (mkRating v c)
    | Throws message =>
        ~ (exists v c, viewRating = IZR v /\ comfortRating = IZR c /\
                       valid_rating (mkRating v c)) /\
        startsWith message "Validation failed: " = true
    end.
Proof.
  intros benchId userId viewRating comfortRating. unfold ratingService_upsert.
  destruct (validateOrThrow ratingSchema (mkRatingInput viewRating comfortRating))
    as [message | d] eqn:E.
  - apply validateOrThrow_throws in E. destruct E as [Hno Hprefix].
    split; [| exact Hprefix]. intro Hok.
    apply (Hno (mkRatingInput viewRating comfortRating)).
    apply ratingSchema_ok. split; [exact Hok | reflexivity].
  - apply validateOrThrow_returns, ratingSchema_ok in E. destruct E as [Hok ->].
    split; [reflexivity | exact Hok].
Qed.

(** ** Comments and their notifications *)

Lemma commentCreateSchema_ok isUuid c d :
  commentCreateSchema isUuid c = ParseSuccess d <->
  commentInputOk isUuid (ci_text c) (ci_parentId c) /\
  d = mkCommentInput (trim (ci_text c)) (ci_parentId c).
Proof.
  unfold commentCreateSchema, commentInputOk.
  rewrite parsed_success, !app_nil_iff, !atField_nil, !app_nil_iff, !check_nil, !Nat.ltb_ge.
  destruct (ci_parentId c) as [p |].
  - rewrite check_nil, negb_false_iff. intuition (try lia; try congruence).
  - intuition (try lia; try congruence).
Qed.



Lemma allWhitespace_trim s : allWhitespace s = true -> trim s = EmptyString.
Proof.
  intro H. unfold trim.
  assert (trimStart s = EmptyString) as ->; [| reflexivity].
  induction s as [| c s IH]; [reflexivity |].
  simpl in *. apply andb_true_iff in H. destruct H as [Hc Hs].
  rewrite Hc. apply IH. exact Hs.
Qed.

(** The checks for an empty title and an empty comment look at the text as
    it is given, before it is trimmed: a title or a comment of spaces only
    passes them, and is written as the empty text. *)
Theorem whitespace_only_text_is_written_empty :
  (forall invalidEnumMessage userId title description latitude longitude viewType notes,
     allWhitespace title = true ->
     benchInputOk (mkBenchInput title description latitude longitude viewType notes) ->
     exists row,
       benchService_create invalidEnumMessage userId
         (mkBenchInput title description latitude longitude viewType notes) = Returns row /\
       ins_title row = EmptyString) /\
  (forall isUuid benches comments profiles newId benchId userId text parentId,
     allWhitespace text = true ->
     commentInputOk isUuid text parentId ->
     exists writes,
       commentService_create isUuid benches comments profiles newId
         benchId userId text parentId = Returns writes /\
       cm_text (written writes) = EmptyString).
Proof.
  split.
  - intros invalidEnumMessage userId title description latitude longitude viewType notes
      Hws Hok.
    unfold benchService_create.
    rewrite (proj2 (validateOrThrow_returns _ _ _)
               (proj2 (benchCreateSchema_ok invalidEnumMessage _ _) (conj Hok eq_refl))).
    eexists. split; [reflexivity |].
    cbn [bi_title ins_title]. apply allWhitespace_trim. exact Hws.
  - intros isUuid benches comments profiles newId benchId userId text parentId Hws Hok.
    unfold commentService_create.
    rewrite (proj2 (validateOrThrow_returns _ _ _)
               (proj2 (commentCreateSchema_ok isUuid (mkCommentInput text parentId) _)
                      (conj Hok eq_refl))).
    eexists. split; [reflexivity |].
    cbn [written cm_text ci_text]. apply allWhitespace_trim. exact Hws.
Qed.

Lemma whitespace_only_text_is_written_empty_witness :
  (exists row,
     benchService_create (fun v => v) "u1"
       (mkBenchInput "   " None 0 0 "ocean" None) = Returns row /\
     ins_title row = EmptyString) /\
  (exists writes,
     commentService_create (fun _ => true) [] [] [] "c9" "b1" "u1" "  " None =
       Returns writes /\
     cm_text (written writes) = EmptyString).
Proof.
  destruct whitespace_only_text_is_written_empty as [Hbench Hcomment].
  split.
  - apply Hbench; [reflexivity |].
    unfold benchInputOk, optionalAtMost, viewTypes.
    cbn [bi_title bi_description bi_latitude bi_longitude bi_viewType
         bi_accessibilityNotes].
    repeat split; try lra; try (left; reflexivity); cbn [String.length]; lia.
  - apply Hcomment; [reflexivity |].
    unfold commentInputOk. repeat split; cbn [String.length]; lia.
Defined.

(** ** Toggles *)

Lemma single_some_iff {A : Type} (rows : list A) :
  (exists row, single rows = Some row) <-> List.length rows = 1%nat.
Proof.
  destruct rows as [| x [| y rows]]; simpl; split; intro H;
    try discriminate; try reflexivity.
  - destruct H as [row H]. discriminate.
  - exists x. reflexivity.
  - destruct H as [row H]. discriminate.
Qed.

(** In a list without repetition, the rows equal to [x] are [x] alone or
    none. *)
Lemma filter_key_NoDup {A : Type} (same : A -> bool) (x : A) (l : list A) :
  (forall y, same y = true <-> y = x) ->
  NoDup l ->
  filter same l = if existsb same l then [x] else [].
Proof.
  intros Hsame Hnd. induction Hnd as [| y l Hnotin Hnd IH]; simpl; [reflexivity |].
  destruct (same y) eqn:Hy; simpl.
  - apply Hsame in Hy. subst y. f_equal.
    apply filter_none. intros z Hz.
    destruct (same z) eqn:Hsz; [| reflexivity].
    apply Hsame in Hsz. subst z. contradiction.
  - exact IH.
Qed.

Lemma existsb_filter {A : Type} (p q : A -> bool) (l : list A) :
  existsb p (filter q l) = existsb (fun y => p y && q y) l.
Proof.
  induction l as [| y l IH]; simpl; [reflexivity |].
  destruct (q y); simpl; rewrite IH; [rewrite andb_true_r | rewrite andb_false_r];
    reflexivity.
Qed.

Lemma existsb_ext_in {A : Type} (p q : A -> bool) (l : list A) :
  (forall y, In y l -> p y = q y) -> existsb p l = existsb q l.
Proof.
  induction l as [| y l IH]; intro H; simpl; [reflexivity |].
  rewrite (H y (or_introl eq_refl)), IH; [reflexivity |].
  intros z Hz. apply H. right; exact Hz.
Qed.

Lemma sameFollow_true a b r : sameFollow a b r = true <-> r = mkFollow a b.
Proof.
  unfold sameFollow. rewrite andb_true_iff, !String.eqb_eq.
  destruct r as [x y]; simpl. split.
  - intros [-> ->]. reflexivity.
  - intro H. injection H as -> ->. split; reflexivity.
Qed.

Lemma sameFollow_pair a b a' b' :
  sameFollow a' b' (mkFollow a b) = String.eqb a' a && String.eqb b' b.
Proof.
  unfold sameFollow; simpl. rewrite (String.eqb_sym a a'), (String.eqb_sym b b').
  reflexivity.
Qed.

Lemma isFollowing_NoDup follows a b :
  NoDup follows ->
  followService_isFollowing follows a b = existsb (sameFollow a b) follows.
Proof.
  intro Hnd. unfold followService_isFollowing.
  rewrite (filter_key_NoDup _ (mkFollow a b) follows (sameFollow_true a b) Hnd).
  destruct (existsb (sameFollow a b) follows); reflexivity.
Qed.

Lemma existsb_unfollow follows a b a' b' :
  existsb (sameFollow a' b') (followService_unfollow follows a b) =
  if String.eqb a' a && String.eqb b' b then false
  else existsb (sameFollow a' b') follows.
Proof.
  unfold followService_unfollow. rewrite existsb_filter.
  destruct (String.eqb a' a && String.eqb b' b) eqn:E.
  - apply andb_true_iff in E. destruct E as [Ea Eb].
    apply String.eqb_eq in Ea, Eb. subst a' b'.
    induction follows as [| r l IH]; simpl; [reflexivity |].
    rewrite IH, orb_false_r. apply andb_negb_r.
  - apply existsb_ext_in. intros r _.
    destruct (sameFollow a' b' r) eqn:E1; [| reflexivity].
    destruct (sameFollow a b r) eqn:E2; [| reflexivity].
    apply sameFollow_true in E1, E2. subst r. injection E2 as -> ->.
    rewrite !String.eqb_refl in E. discriminate.
Qed.

Lemma followsOk_unfollow follows a b :
  followsOk follows -> followsOk (followService_unfollow follows a b).
Proof.
  intros [Hnd Hself]. split.
  - apply NoDup_filter. exact Hnd.
  - apply Forall_forall. intros r Hr. apply filter_In in Hr. destruct Hr as [Hr _].
    rewrite Forall_forall in Hself. exact (Hself r Hr).
Qed.

Lemma followsOk_add follows a b :
  followsOk follows -> a <> b -> existsb (sameFollow a b) follows = false ->
  followsOk (follows ++ [mkFollow a b]).
Proof.
  intros [Hnd Hself] Hab Hnew. split.
  - apply NoDup_app; [exact Hnd | repeat constructor; intros [] |].
    intros r Hr [<- | []].
    assert (existsb (sameFollow a b) follows = true) as Hex; [| congruence].
    apply existsb_exists. exists (mkFollow a b). split; [exact Hr |].
    apply sameFollow_true. reflexivity.
  - apply Forall_app. split; [exact Hself |]. constructor; [exact Hab | constructor].
Qed.

Lemma isFollowing_self follows a :
  followsOk follows -> existsb (sameFollow a a) follows = false.
Proof.
  intros [_ Hself]. destruct (existsb (sameFollow a a) follows) eqn:E; [| reflexivity].
  apply existsb_exists in E. destruct E as [r [Hr Hs]].
  apply sameFollow_true in Hs. subst r.
  rewrite Forall_forall in Hself. specialize (Hself _ Hr). simpl in Hself.
  contradiction Hself. reflexivity.
Qed.

(** On a table that keeps its key and holds nobody following themself,
    [followService.toggle] throws for a user and themself, and otherwise
    returns the opposite of the status there was, leaves a table of the same
    kind, and changes the status of that one pair only; so a second toggle
    undoes the first. *)
Theorem follow_toggle :
  forall follows followerId followingId,
    followsOk follows ->
    match followService_toggle follows followerId followingId with
    | Returns (status, follows') =>
        followerId <> followingId /\
        status = negb (followService_isFollowing follows followerId followingId) /\
        followsOk follows' /\
        (forall a b,
           followService_isFollowing follows' a b =
           if String.eqb a followerId && String.eqb b followingId then status
           else followService_isFollowing follows a b) /\
        (exists follows'',
           followService_toggle follows' followerId followingId =
             Returns (negb status, follows'') /\
           forall a b,
             followService_isFollowing follows'' a b = followService_isFollowing follows a b)
    | Throws message =>
        followerId = followingId /\ message = "Cannot follow yourself"%string
    end.
Proof.
  intros follows a b Hok. pose proof Hok as [Hnd _].
  assert (forall fs x y, followsOk fs -> x <> y ->
            followService_toggle fs x y =
            Returns (negb (existsb (sameFollow x y) fs),
                     if existsb (sameFollow x y) fs then followService_unfollow fs x y
                     else fs ++ [mkFollow x y])) as Htoggle.
  { intros fs x y [Hfs _] Hxy. unfold followService_toggle, followService_follow.
    rewrite (isFollowing_NoDup fs x y Hfs).
    destruct (existsb (sameFollow x y) fs); [reflexivity |].
    destruct (String.eqb_spec x y); [contradiction | reflexivity]. }
  assert (forall fs x y, followsOk fs -> x <> y ->
            let fs' := if existsb (sameFollow x y) fs then followService_unfollow fs x y
                       else fs ++ [mkFollow x y] in
            followsOk fs' /\
            forall a' b',
              existsb (sameFollow a' b') fs' =
              if String.eqb a' x && String.eqb b' y
              then negb (existsb (sameFollow x y) fs)
              else existsb (sameFollow a' b') fs) as Hstep.
  { intros fs x y Hfs Hxy fs'. subst fs'.
    destruct (existsb (sameFollow x y) fs) eqn:Hex.
    - split; [apply followsOk_unfollow; exact Hfs |].
      intros a' b'. apply existsb_unfollow.
    - split; [apply followsOk_add; assumption |].
      intros a' b'. rewrite existsb_app. simpl. rewrite orb_false_r, sameFollow_pair.
      destruct (String.eqb a' x && String.eqb b' y) eqn:E.
      + apply orb_true_r.
      + apply orb_false_r. }
  destruct (String.eqb_spec a b) as [-> | Hab].
  - unfold followService_toggle, followService_follow.
    rewrite (isFollowing_NoDup follows b b Hnd), (isFollowing_self follows b Hok).
    rewrite String.eqb_refl. split; reflexivity.
  - rewrite (Htoggle follows a b Hok Hab).
    destruct (Hstep follows a b Hok Hab) as [Hok' Hget].
    set (follows' := if existsb (sameFollow a b) follows
                     then followService_unfollow follows a b
                     else follows ++ [mkFollow a b]) in *.
    pose proof Hok' as [Hnd' _].
    split; [exact Hab |].
    split; [rewrite (isFollowing_NoDup follows a b Hnd); reflexivity |].
    split; [exact Hok' |]. split.
    + intros a' b'. rewrite (isFollowing_NoDup follows' a' b' Hnd'), Hget.
      rewrite (isFollowing_NoDup follows a' b' Hnd). reflexivity.
    + rewrite (Htoggle follows' a b Hok' Hab).
      destruct (Hstep follows' a b Hok' Hab) as [[Hnd'' _] Hget''].
      assert (existsb (sameFollow a b) follows' = negb (existsb (sameFollow a b) follows))
        as Hflip.
      { rewrite Hget, !String.eqb_refl. reflexivity. }
      rewrite Hflip in *.
      eexists. split; [reflexivity |].
      intros a' b'. rewrite (isFollowing_NoDup _ a' b' Hnd''), Hget'', Hget.
      rewrite (isFollowing_NoDup follows a' b' Hnd).
      destruct (String.eqb a' a && String.eqb b' b) eqn:E; [| reflexivity].
      apply andb_true_iff in E. destruct E as [Ea Eb].
      apply String.eqb_eq in Ea, Eb. subst a' b'. apply negb_involutive.
Qed.

Lemma follow_toggle_witness :
  followsOk [mkFollow "ana" "bob"] /\
  forall a b,
    followService_isFollowing [] a b =
    if String.eqb a "ana" && String.eqb b "bob" then false
    else followService_isFollowing [mkFollow "ana" "bob"] a b.
Proof.
  assert (followsOk [mkFollow "ana" "bob"]) as Hok.
  { split; repeat constructor; simpl; [tauto | discriminate]. }
  split; [exact Hok |].
  pose proof (follow_toggle [mkFollow "ana" "bob"] "ana" "bob" Hok) as H.
  change (followService_toggle [mkFollow "ana" "bob"] "ana" "bob")
    with (Returns (false, @nil follow)) in H.
  destruct H as [_ [_ [_ [H _]]]]. exact H.
Defined.

Lemma sameFavorite_true b u f : sameFavorite b u f = true <-> f = mkFavorite u b.
Proof.
  unfold sameFavorite. rewrite andb_true_iff, !String.eqb_eq.
  destruct f as [x y]; simpl. split.
  - intros [-> ->]. reflexivity.
  - intro H. injection H as -> ->. split; reflexivity.
Qed.

Lemma sameFavorite_pair b u b' u' :
  sameFavorite b' u' (mkFavorite u b) = String.eqb b' b && String.eqb u' u.
Proof.
  unfold sameFavorite; simpl. rewrite (String.eqb_sym u u'), (String.eqb_sym b b').
  apply andb_comm.
Qed.

Lemma isFavorite_NoDup favorites b u :
  NoDup favorites ->
  favoriteService_isFavorite favorites b u = existsb (sameFavorite b u) favorites.
Proof.
  intro Hnd. unfold favoriteService_isFavorite.
  rewrite (filter_key_NoDup _ (mkFavorite u b) favorites (sameFavorite_true b u) Hnd).
  destruct (existsb (sameFavorite b u) favorites); reflexivity.
Qed.

Lemma existsb_remove favorites b u b' u' :
  existsb (sameFavorite b' u') (favoriteService_remove favorites b u) =
  if String.eqb b' b && String.eqb u' u then false
  else existsb (sameFavorite b' u') favorites.
Proof.
  unfold favoriteService_remove. rewrite existsb_filter.
  destruct (String.eqb b' b && String.eqb u' u) eqn:E.
  - apply andb_true_iff in E. destruct E as [Eb Eu].
    apply String.eqb_eq in Eb, Eu. subst b' u'.
    induction favorites as [| r l IH]; simpl; [reflexivity |].
    rewrite IH, orb_false_r. apply andb_negb_r.
  - apply existsb_ext_in. intros r _.
    destruct (sameFavorite b' u' r) eqn:E1; [| reflexivity].
    destruct (sameFavorite b u r) eqn:E2; [| reflexivity].
    apply sameFavorite_true in E1, E2. subst r. injection E2 as -> ->.
    rewrite !String.eqb_refl in E. discriminate.
Qed.

Lemma favorite_toggle_step favorites b u :
  NoDup favorites ->
  let favorites' :=
    if existsb (sameFavorite b u) favorites then favoriteService_remove favorites b u
    else favorites ++ [mkFavorite u b] in
  favoriteService_toggle favorites b u =
    Returns (negb (existsb (sameFavorite b u) favorites), favorites') /\
  NoDup favorites' /\
  forall b' u',
    existsb (sameFavorite b' u') favorites' =
    if String.eqb b' b && String.eqb u' u
    then negb (existsb (sameFavorite b u) favorites)
    else existsb (sameFavorite b' u') favorites.
Proof.
  intros Hnd favorites'. subst favorites'.
  unfold favoriteService_toggle, favoriteService_add.
  rewrite (isFavorite_NoDup favorites b u Hnd).
  destruct (existsb (sameFavorite b u) favorites) eqn:Hex.
  - split; [reflexivity |]. split; [apply NoDup_filter; exact Hnd |].
    intros b' u'. apply existsb_remove.
  - split; [reflexivity |]. split.
    + apply NoDup_app; [exact Hnd | repeat constructor; intros [] |].
      intros r Hr [<- | []].
      assert (existsb (sameFavorite b u) favorites = true) as Hex'; [| congruence].
      apply existsb_exists. exists (mkFavorite u b). split; [exact Hr |].
      apply sameFavorite_true. reflexivity.
    + intros b' u'. rewrite existsb_app. simpl. rewrite orb_false_r, sameFavorite_pair.
      destruct (String.eqb b' b && String.eqb u' u); [apply orb_true_r | apply orb_false_r].
Qed.

(** On a table that keeps its key, [favoriteService.toggle] never throws:
    it returns the opposite of the status there was, keeps the key, and
    changes the status of that one bench for that one user only; so a second
    toggle undoes the first. *)
Theorem favorite_toggle :
  forall favorites benchId userId,
    NoDup favorites ->
    match favoriteService_toggle favorites benchId userId with
    | Returns (status, favorites') =>
        status = negb (favoriteService_isFavorite favorites benchId userId) /\
        NoDup favorites' /\
        (forall b u,
           favoriteService_isFavorite favorites' b u =
           if String.eqb b benchId && String.eqb u userId then status
           else favoriteService_isFavorite favorites b u) /\
        (exists favorites'',
           favoriteService_toggle favorites' benchId userId =
             Returns (negb status, favorites'') /\
           forall b u,
             favoriteService_isFavorite favorites'' b u =
             favoriteService_isFavorite favorites b u)
    | Throws _ => False
    end.
Proof.
  intros favorites b u Hnd.
  destruct (favorite_toggle_step favorites b u Hnd) as [E [Hnd' Hget]].
  rewrite E.
  set (favorites' := if existsb (sameFavorite b u) favorites
                     then favoriteService_remove favorites b u
                     else favorites ++ [mkFavorite u b]) in *.
  split; [rewrite (isFavorite_NoDup favorites b u Hnd); reflexivity |].
  split; [exact Hnd' |]. split.
  - intros b' u'. rewrite (isFavorite_NoDup favorites' b' u' Hnd'), Hget.
    rewrite (isFavorite_NoDup favorites b' u' Hnd). reflexivity.
  - destruct (favorite_toggle_step favorites' b u Hnd') as [E' [Hnd'' Hget'']].
    assert (existsb (sameFavorite b u) favorites' =
            negb (existsb (sameFavorite b u) favorites)) as Hflip.
    { rewrite Hget, !String.eqb_refl. reflexivity. }
    rewrite Hflip in *. rewrite E'.
    eexists. split; [reflexivity |].
    intros b' u'. rewrite (isFavorite_NoDup _ b' u' Hnd''), Hget'', Hget.
    rewrite (isFavorite_NoDup favorites b' u' Hnd).
    destruct (String.eqb b' b && String.eqb u' u) eqn:Eq; [| reflexivity].
    apply andb_true_iff in Eq. destruct Eq as [Eb Eu].
    apply String.eqb_eq in Eb, Eu. subst b' u'. apply negb_involutive.
Qed.

Lemma favorite_toggle_witness :
  NoDup [mkFavorite "ana" "b1"] /\
  forall b u,
    favoriteService_isFavorite [mkFavorite "ana" "b1"; mkFavorite "ana" "b2"] b u =
    if String.eqb b "b2" && String.eqb u "ana" then true
    else favoriteService_isFavorite [mkFavorite "ana" "b1"] b u.
Proof.
  assert (NoDup [mkFavorite "ana" "b1"]) as Hnd.
  { repeat constructor. simpl. tauto. }
  split; [exact Hnd |].
  pose proof (favorite_toggle [mkFavorite "ana" "b1"] "b2" "ana" Hnd) as H.
  change (favoriteService_toggle [mkFavorite "ana" "b1"] "b2" "ana")
    with (Returns (true, [mkFavorite "ana" "b1"; mkFavorite "ana" "b2"])) in H.
  destruct H as [_ [_ [H _]]]. exact H.
Defined.

Lemma sameLike_true c u l : sameLike c u l = true <-> l = mkCommentLike c u.
Proof.
  unfold sameLike. rewrite andb_true_iff, !String.eqb_eq.
  destruct l as [x y]; simpl. split.
  - intros [-> ->]. reflexivity.
  - intro H. injection H as -> ->. split; reflexivity.
Qed.

Lemma single_length_1 {A : Type} (rows : list A) :
  List.length rows = 1%nat -> exists row, single rows = Some row.
Proof.
  intro H. apply single_some_iff. exact H.
Qed.

Lemma single_length_not_1 {A : Type} (rows : list A) :
  List.length rows <> 1%nat -> single rows = None.
Proof.
  intro H. destruct (single rows) as [row |] eqn:E; [| reflexivity].
  exfalso. apply H. apply single_some_iff. exists row. exact E.
Qed.

Lemma likeCount_removed comment_likes c u c' u' :
  likeCount (filter (fun l => negb (sameLike c u l)) comment_likes) c' u' =
  if String.eqb c' c && String.eqb u' u then 0%nat else likeCount comment_likes c' u'.
Proof.
  unfold likeCount. induction comment_likes as [| l ls IH]; simpl.
  - destruct (String.eqb c' c && String.eqb u' u); reflexivity.
  - destruct (sameLike c u l) eqn:E1; simpl.
    + rewrite IH. destruct (String.eqb c' c && String.eqb u' u) eqn:E; [reflexivity |].
      destruct (sameLike c' u' l) eqn:E2; [| reflexivity].
      apply sameLike_true in E1, E2. subst l. injection E2 as -> ->.
      rewrite !String.eqb_refl in E. discriminate.
    + destruct (sameLike c' u' l) eqn:E2; simpl; rewrite IH.
      * destruct (String.eqb c' c && String.eqb u' u) eqn:E; [| reflexivity].
        apply andb_true_iff in E. destruct E as [Ec Eu].
        apply String.eqb_eq in Ec, Eu. subst c' u'. congruence.
      * reflexivity.
Qed.

Lemma likeCount_added comment_likes c u c' u' :
  likeCount (comment_likes ++ [mkCommentLike c u]) c' u' =
  if String.eqb c' c && String.eqb u' u then S (likeCount comment_likes c' u')
  else likeCount comment_likes c' u'.
Proof.
  unfold likeCount. rewrite filter_app, length_app. simpl.
  unfold sameLike at 2. simpl.
  rewrite (String.eqb_sym c c'), (String.eqb_sym u u').
  destruct (String.eqb c' c && String.eqb u' u); simpl; lia.
Qed.

(** [commentLikeService.toggle] unlikes exactly when the user has one like
    on the comment: it then removes it, returns false and notifies nobody.
    In every other case, two or more likes of the same user included, it
    adds a like and returns true; the likes of other users and on other
    comments are never touched; and a notification is written exactly when
    a like was added to a comment that is found and whose author is somebody
    else, and it goes to that author. *)
Theorem comment_like_toggle :
  forall comment_likes comments commentId userId,
    let result := commentLikeService_toggle comment_likes comments commentId userId in
    (likeCount comment_likes commentId userId = 1%nat ->
       liked result = false /\ likeNotified result = None) /\
    (likeCount comment_likes commentId userId <> 1%nat -> liked result = true) /\
    (forall c u,
       likeCount (likes result) c u =
       if String.eqb c commentId && String.eqb u userId
       then (if liked result then S (likeCount comment_likes c u) else 0%nat)
       else likeCount comment_likes c u) /\
    (forall n,
       likeNotified result = Some n <->
       liked result = true /\
       exists comment,
         single (filter (fun c => String.eqb (lc_id c) commentId) comments) = Some comment /\
         lc_user_id comment <> userId /\
         n = mkNotification (lc_user_id comment) userId "comment_like"
               (Some (lc_bench_id comment)) (Some commentId) (Some false)).
Proof.
  intros comment_likes comments c u result. subst result.
  unfold commentLikeService_toggle.
  destruct (Nat.eq_dec (likeCount comment_likes c u) 1) as [H1 | H1].
  - destruct (single_length_1 _ H1) as [existing E]. rewrite E. simpl.
    split; [intros _; split; reflexivity |].
    split; [intro H; contradiction |].
    split; [intros c' u'; apply likeCount_removed |].
    intro n. split; [discriminate | intros [H _]; discriminate].
  - unfold likeCount in H1. rewrite (single_length_not_1 _ H1). simpl.
    split; [intro H; contradiction |].
    split; [intros _; reflexivity |].
    split; [intros c' u'; apply likeCount_added |].
    intro n.
    destruct (single (filter (fun c0 => String.eqb (lc_id c0) c) comments))
      as [comment |]; unfold notificationService_create.
    + destruct (String.eqb_spec (lc_user_id comment) u) as [Eu | Eu].
      * split; [discriminate |].
        intros [_ [comment' [Ec [Hne _]]]]. injection Ec as <-. contradiction.
      * split.
        -- intro H. injection H as <-. split; [reflexivity |].
           exists comment. repeat split. exact Eu.
        -- intros [_ [comment' [Ec [_ ->]]]]. injection Ec as <-. reflexivity.
    + split; [discriminate |]. intros [_ [comment' [Ec _]]]. discriminate.
Qed.

(** ** What a search result shows *)

Lemma sumZ_bounds (lo hi : Z) (l : list Z) :
  Forall (fun x => (lo <= x <= hi)%Z) l ->
  (lo * Z.of_nat (List.length l) <= sumZ l <= hi * Z.of_nat (List.length l))%Z.
Proof.
  induction 1 as [| x l Hx Hl IH]; [simpl; lia |].
  change (sumZ (x :: l)) with (x + sumZ l)%Z.
  change (List.length (x :: l)) with (S (List.length l)). lia.
Qed.

Lemma avgRating_rated u b :
  valid_bench b -> (0 < ratingsCount (processBench u b))%nat ->
  1 <= avgRating (processBench u b) <= 5.
Proof.
  intros Hv Hn. rewrite avgRating_processBench.
  unfold processBench in Hn; cbn [ratingsCount] in Hn. unfold valid_bench in Hv.
  destruct (bench_ratings b) as [[| r rs] |]; try (simpl in Hn; lia).
  clear Hn. set (l := r :: rs) in *. unfold pooledMean.
  assert (0 < INR (List.length l)) as Hlen by (apply lt_0_INR; simpl; lia).
  assert (1 * Z.of_nat (List.length l) <= sumZ (map view_rating l)
          <= 5 * Z.of_nat (List.length l))%Z as Hview.
  { rewrite <- (length_map view_rating l). apply sumZ_bounds. apply Forall_map.
    eapply Forall_impl; [| exact Hv]. intros x [Hx _]. exact Hx. }
  assert (1 * Z.of_nat (List.length l) <= sumZ (map comfort_rating l)
          <= 5 * Z.of_nat (List.length l))%Z as Hcomfort.
  { rewrite <- (length_map comfort_rating l). apply sumZ_bounds. apply Forall_map.
    eapply Forall_impl; [| exact Hv]. intros x [_ Hx]. exact Hx. }
  destruct Hview as [V1 V2], Hcomfort as [C1 C2].
  apply IZR_le in V1, V2, C1, C2.
  rewrite mult_IZR, <- INR_IZR_INZ in V1, V2, C1, C2.
  set (n := INR (List.length l)) in *.
  set (v := IZR (sumZ (map view_rating l))) in *.
  set (c := IZR (sumZ (map comfort_rating l))) in *.
  assert (0 < 2 * n) as H2n by lra.
  split.
  - apply (Rmult_le_reg_r (2 * n)); [exact H2n |].
    unfold Rdiv. rewrite Rmult_assoc, Rinv_l; lra.
  - apply (Rmult_le_reg_r (2 * n)); [exact H2n |].
    unfold Rdiv. rewrite Rmult_assoc, Rinv_l; lra.
Qed.

(** When every rating of the table is an integer from 1 to 5, each record
    [benchService.search] returns carries an average that is 0 if the bench
    has no rating and lies between 1 and 5 otherwise; so [SearchResultCard]
    shows the rating badge exactly on the benches that have a rating; and it
    shows the distance text exactly when the search had a [userLocation]. *)
Theorem search_result_card :
  forall table p,
    Forall valid_bench table ->
    Forall (fun b =>
              (showsRating b = true <-> (0 < ratingsCount b)%nat) /\
              (showsRating b = true -> 1 <= avgRating b <= 5) /\
              (showsRating b = false -> avgRating b = 0) /\
              (showsDistance b = true <-> userLocation p <> None))
      (search table p).
Proof.
  intros table p Hv. apply Forall_forall. intros pb Hpb.
  apply search_In, filteredInput_In in Hpb. destruct Hpb as [b [Hb ->]].
  rewrite Forall_forall in Hv. specialize (Hv b Hb).
  assert (showsRating (processBench (userLocation p) b) = true <->
          (0 < ratingsCount (processBench (userLocation p) b))%nat) as Hbadge.
  { unfold showsRating. split.
    - intro H. destruct (ratingsCount (processBench (userLocation p) b)) eqn:E; [| lia].
      rewrite (avgRating_no_ratings _ _ E) in H.
      apply Rltb_true in H. lra.
    - intro H. apply Rltb_true.
      pose proof (avgRating_rated (userLocation p) b Hv H). lra. }
  split; [exact Hbadge |]. split; [| split].
  - intro H. apply avgRating_rated; [exact Hv | apply Hbadge; exact H].
  - intro H. apply avgRating_no_ratings.
    destruct (Nat.eq_dec (ratingsCount (processBench (userLocation p) b)) 0)
      as [E | E]; [exact E |].
    assert (showsRating (processBench (userLocation p) b) = true) as Ht.
    { apply Hbadge. lia. }
    congruence.
  - unfold showsDistance, processBench; cbn [distance].
    destruct (userLocation p); split; intro H; try reflexivity; try discriminate.
    contradiction H. reflexivity.
Qed.

Lemma search_result_card_witness :
  Forall valid_bench [oceanBench; forestBench] /\
  Forall (fun b =>
            (showsRating b = true <-> (0 < ratingsCount b)%nat) /\
            (showsRating b = true -> 1 <= avgRating b <= 5) /\
            (showsRating b = false -> avgRating b = 0) /\
            (showsDistance b = true <-> userLocation (noFilters None None MaxNull) <> None))
    (search [oceanBench; forestBench] (noFilters None None MaxNull)).
Proof.
  assert (Forall valid_bench [oceanBench; forestBench]) as Hvalid.
  { repeat constructor; simpl; lia. }
  split; [exact Hvalid |].
  apply (search_result_card [oceanBench; forestBench] (noFilters None None MaxNull) Hvalid).
Defined.

(** ** Photos *)

Lemma str_app_nil_r (s : string) : (s ++ "")%string = s.
Proof. induction s as [| c s IH]; simpl; [reflexivity | rewrite IH; reflexivity]. Qed.

Lemma str_app_assoc (s t u : string) : ((s ++ t) ++ u)%string = (s ++ t ++ u)%string.
Proof. induction s as [| c s IH]; simpl; [reflexivity | rewrite IH; reflexivity]. Qed.

Lemma str_length_app (s t : string) :
  String.length (s ++ t) = (String.length s + String.length t)%nat.
Proof. induction s as [| c s IH]; simpl; [reflexivity | rewrite IH; reflexivity]. Qed.

Lemma startsWith_refl_app (p rest : string) : startsWith (p ++ rest) p = true.
Proof.
  induction p as [| c p IH]; simpl; [reflexivity |].
  rewrite Ascii.eqb_refl. exact IH.
Qed.

(** A prefix no longer than [x] is decided within [x]. *)
Lemma startsWith_app_long (p x y : string) :
  (String.length p <= String.length x)%nat ->
  startsWith (x ++ y) p = startsWith x p.
Proof.
  revert x. induction p as [| c p IH]; intros x Hlen; [reflexivity |].
  destruct x as [| d x]; simpl in Hlen; [lia |]. simpl.
  rewrite IH; [reflexivity | lia].
Qed.

Lemma occursIn_false_cons sep c s :
  occursIn sep (String c s) = false ->
  startsWith (String c s) sep = false /\ occursIn sep s = false.
Proof.
  intro H. change (startsWith (String c s) sep || occursIn sep s = false) in H.
  apply orb_false_iff in H. exact H.
Qed.

Lemma splitFrom_skip sep (x rest piece : string) :
  splitFrom sep (String.length x) piece (x ++ rest) = splitFrom sep 0 piece rest.
Proof.
  induction x as [| c x IH]; simpl; [destruct rest; reflexivity | exact IH].
Qed.

(** Without an occurrence of the separator there is one piece. *)
Lemma splitFrom_one sep (s piece : string) :
  occursIn sep s = false -> splitFrom sep 0 piece s = [(piece ++ s)%string].
Proof.
  revert piece. induction s as [| c s IH]; intros piece H.
  - simpl. rewrite str_app_nil_r. reflexivity.
  - apply occursIn_false_cons in H. destruct H as [Hhere Hlater].
    cbn [splitFrom]. rewrite Hhere, (IH _ Hlater), str_app_assoc. reflexivity.
Qed.

(** The first occurrence of the separator ends the first piece. *)
Lemma splitFrom_first (init : string) (l : ascii) (a rest piece : string) :
  let sep := (init ++ String l "")%string in
  occursIn sep (a ++ init) = false ->
  splitFrom sep 0 piece (a ++ sep ++ rest) =
  (piece ++ a)%string :: splitFrom sep 0 "" rest.
Proof.
  intros sep. revert piece. induction a as [| c a IH]; intros piece H.
  - rewrite str_app_nil_r. cbn [append].
    assert (exists c0 sep', sep = String c0 sep') as [c0 [sep' Esep]].
    { unfold sep. destruct init as [| c0 init']; simpl; eauto. }
    rewrite Esep. cbn [append splitFrom].
    rewrite <- Esep.
    change (String c0 (sep' ++ rest)%string) with ((String c0 sep') ++ rest)%string.
    rewrite <- Esep, startsWith_refl_app.
    replace (String.length sep - 1)%nat with (String.length sep')
      by (rewrite Esep; simpl; lia).
    rewrite splitFrom_skip. reflexivity.
  - change (String c a ++ init)%string with (String c (a ++ init)) in H.
    apply occursIn_false_cons in H. destruct H as [Hhere Hlater].
    assert (startsWith (String c a ++ sep ++ rest) sep = false) as Hno.
    { unfold sep at 1. rewrite (str_app_assoc init), <- (str_app_assoc (String c a)).
      rewrite startsWith_app_long; [exact Hhere |].
      unfold sep. rewrite !str_length_app. simpl. lia. }
    change (String c a ++ sep ++ rest)%string with (String c (a ++ sep ++ rest)) in *.
    cbn [splitFrom]. rewrite Hno, (IH _ Hlater), str_app_assoc. reflexivity.
Qed.

Lemma split_two (init : string) (l : ascii) (a b : string) :
  let sep := (init ++ String l "")%string in
  occursIn sep (a ++ init) = false ->
  occursIn sep b = false ->
  split (a ++ sep ++ b) sep = [a; b].
Proof.
  intros sep Ha Hb. unfold split.
  pose proof (splitFrom_first init l a b "" Ha) as Hfirst. cbv zeta in Hfirst.
  fold sep in Hfirst. rewrite Hfirst, (splitFrom_one sep b "" Hb). reflexivity.
Qed.

Lemma storagePath_of_url (base path : string) :
  occursIn "/bench-photos/" (base ++ "/bench-photos") = false ->
  occursIn "/bench-photos/" path = false ->
  storagePath (base ++ "/bench-photos/" ++ path) = Some path.
Proof.
  intros Hbase Hpath. unfold storagePath.
  pose proof (split_two "/bench-photos" "/"%char base path Hbase Hpath) as Hsplit.
  cbv zeta in Hsplit.
  change ("/bench-photos" ++ "/")%string with "/bench-photos/"%string in Hsplit.
  rewrite Hsplit. reflexivity.
Qed.

Lemma str_app_not_empty (s t : string) : t <> ""%string -> (s ++ t)%string <> ""%string.
Proof.
  intros Ht H. destruct s as [| c s]; simpl in H; [contradiction | discriminate].
Qed.

Lemma truthyString_some (s : string) : s <> ""%string -> truthyString (Some s) = Some s.
Proof. destruct s; [contradiction | reflexivity]. Qed.

Lemma no_slash_in_empty : occursIn "/" "" = false.
Proof. reflexivity. Qed.

Lemma split_slash_two (typ sub : string) :
  occursIn "/" typ = false -> occursIn "/" sub = false ->
  split (typ ++ "/" ++ sub) "/" = [typ; sub].
Proof.
  intros Htyp Hsub.
  assert (occursIn "/" (typ ++ "") = false) as Htyp' by (rewrite str_app_nil_r; exact Htyp).
  exact (split_two "" "/"%char typ sub Htyp' Hsub).
Qed.

Lemma fileExtOf_slash (typ sub : string) :
  occursIn "/" typ = false -> occursIn "/" sub = false ->
  fileExtOf (Some (typ ++ "/" ++ sub)%string) =
  if String.eqb sub "" then "jpg"%string else sub.
Proof.
  intros Htyp Hsub. unfold fileExtOf. rewrite (split_slash_two typ sub Htyp Hsub).
  destruct sub; reflexivity.
Qed.

Lemma fileExtOf_no_slash (m : string) :
  occursIn "/" m = false -> fileExtOf (Some m) = "jpg"%string.
Proof.
  intro H. unfold fileExtOf, split. rewrite (splitFrom_one "/" m "" H). reflexivity.
Qed.

(** For a mime type [typ/sub], the extension of the stored object is [sub],
    with [jpg] for [jpeg] and for an empty [sub]; the content type sent is
    [image/sub] whatever [typ] is, with [jpeg] for [jpg] and for an empty
    [sub].  A mime type without a slash counts as JPEG, as an absent one
    does. *)
Theorem upload_names :
  forall typ sub userId benchId now,
    occursIn "/" typ = false ->
    occursIn "/" sub = false ->
    uploadFileName userId benchId now (fileExtOf (Some (typ ++ "/" ++ sub)%string)) =
      (userId ++ "/" ++ benchId ++ "/" ++ now ++ "." ++
       (if String.eqb sub "" || String.eqb sub "jpeg" then "jpg" else sub))%string /\
    uploadContentType (fileExtOf (Some (typ ++ "/" ++ sub)%string)) =
      ("image/" ++ (if String.eqb sub "" || String.eqb sub "jpg" then "jpeg" else sub))%string /\
    uploadFileName userId benchId now (fileExtOf (Some typ)) =
      (userId ++ "/" ++ benchId ++ "/" ++ now ++ ".jpg")%string /\
    uploadContentType (fileExtOf (Some typ)) = "image/jpeg"%string /\
    fileExtOf (Some typ) = fileExtOf None.
Proof.
  intros typ sub userId benchId now Htyp Hsub.
  rewrite (fileExtOf_slash typ sub Htyp Hsub), (fileExtOf_no_slash typ Htyp).
  unfold uploadFileName, uploadContentType.
  split; [| split; [| repeat split]].
  - destruct (String.eqb sub "") eqn:E; [reflexivity |]. reflexivity.
  - destruct (String.eqb sub "") eqn:E; [reflexivity |]. reflexivity.
Qed.

Lemma upload_names_witness :
  uploadFileName "u1" "b1" "1700000000000" (fileExtOf (Some "image/jpeg"%string)) =
    "u1/b1/1700000000000.jpg"%string /\
  uploadContentType (fileExtOf (Some "video/mp4"%string)) = "image/mp4"%string.
Proof.
  destruct (upload_names "image" "jpeg" "u1" "b1" "1700000000000" eq_refl eq_refl)
    as [Hname _].
  destruct (upload_names "video" "mp4" "u1" "b1" "1700000000000" eq_refl eq_refl)
    as [_ [Htype _]].
  split; [exact Hname | exact Htype].
Defined.

Lemma photoService_upload_returns atob storage_upload getPublicUrl
    benchId userId photoData mimeType isPrimary now u :
  photoService_upload atob storage_upload getPublicUrl benchId userId photoData
    mimeType isPrimary now = Returns u ->
  u = mkUploaded (uploadFileName userId benchId now (fileExtOf mimeType))
        (uploadContentType (fileExtOf mimeType))
        (mkPhotoInsert benchId
           (getPublicUrl (uploadFileName userId benchId now (fileExtOf mimeType)))
           isPrimary).
Proof.
  unfold photoService_upload. destruct (atob photoData) as [message | bytes];
    [discriminate |].
  destruct (storage_upload _ bytes _); [discriminate |].
  intro H. injection H as <-. reflexivity.
Qed.

Lemma uploadFileName_not_empty userId benchId now fileExt :
  uploadFileName userId benchId now fileExt <> ""%string.
Proof.
  unfold uploadFileName. apply str_app_not_empty. discriminate.
Qed.

(** A photo that [upload] stored is found again by its address: when the
    public address of an object is the bucket's address followed by
    [/bench-photos/] and the object's name, and neither holds
    [/bench-photos/] a second time, [deleteFromStorage] and [delete] ask the
    bucket to remove exactly the object that [upload] wrote, and [delete]
    takes the row out of the table. *)
Theorem uploaded_photo_is_removed_by_name :
  forall atob storage_upload getPublicUrl base
         benchId userId photoData mimeType isPrimary now u,
    (forall fileName,
       getPublicUrl fileName = (base ++ "/bench-photos/" ++ fileName)%string) ->
    occursIn "/bench-photos/" (base ++ "/bench-photos") = false ->
    occursIn "/bench-photos/" (uploadFileName userId benchId now (fileExtOf mimeType)) =
      false ->
    photoService_upload atob storage_upload getPublicUrl benchId userId photoData
      mimeType isPrimary now = Returns u ->
    storagePath (pi_photo_url (up_row u)) = Some (up_fileName u) /\
    forall bench_photos photoId,
      let photo := mkBenchPhoto photoId (pi_bench_id (up_row u))
                     (pi_photo_url (up_row u)) (pi_is_primary (up_row u)) in
      photoService_deleteFromStorage [photo] = [Some (up_fileName u)] /\
      (filter (hasId photoId) bench_photos = [photo] ->
       photoService_delete bench_photos photoId =
       Returns ([up_fileName u],
                filter (fun p => negb (hasId photoId p)) bench_photos)).
Proof.
  intros atob storage_upload getPublicUrl base benchId userId photoData mimeType
    isPrimary now u Hurl Hbase Hname Hup.
  apply photoService_upload_returns in Hup. subst u.
  cbn [up_row up_fileName pi_photo_url pi_bench_id pi_is_primary].
  set (fileName := uploadFileName userId benchId now (fileExtOf mimeType)) in *.
  assert (storagePath (getPublicUrl fileName) = Some fileName) as Hpath.
  { rewrite Hurl. apply storagePath_of_url; assumption. }
  split; [exact Hpath |].
  intros bench_photos photoId. split.
  - unfold photoService_deleteFromStorage. cbn [map ph_photo_url]. rewrite Hpath.
    reflexivity.
  - intro Hrow. unfold photoService_delete. rewrite Hrow. cbn [single ph_photo_url].
    rewrite truthyString_some.
    + rewrite Hpath, truthyString_some; [reflexivity |].
      apply uploadFileName_not_empty.
    + rewrite Hurl. apply str_app_not_empty. discriminate.
Qed.

Lemma uploaded_photo_is_removed_by_name_witness :
  storagePath "https://x.supabase.co/storage/v1/object/public/bench-photos/u1/b1/17.png" =
  Some "u1/b1/17.png"%string.
Proof.
  exact (proj1
    (uploaded_photo_is_removed_by_name
       (fun photoData => Returns photoData) (fun _ _ _ => None)
       (fun fileName =>
          ("https://x.supabase.co/storage/v1/object/public" ++ "/bench-photos/" ++
           fileName)%string)
       "https://x.supabase.co/storage/v1/object/public"
       "b1" "u1" "aGk=" (Some "image/png"%string) true "17"
       (mkUploaded "u1/b1/17.png" "image/png"
          (mkPhotoInsert "b1"
             "https://x.supabase.co/storage/v1/object/public/bench-photos/u1/b1/17.png"
             true))
       (fun fileName => eq_refl) eq_refl eq_refl eq_refl)).
Defined.

Section StorageFacts.

Variable atob : string -> outcome string.
Variable storage_upload : string -> string -> string -> option string.
Variable getPublicUrl : string -> string.

Lemma uploadFrom_later benchId userId clock i photos :
  Forall (fun u => pi_is_primary (up_row u) = false)
    (uploadFrom atob storage_upload getPublicUrl benchId userId clock (S i) photos).
Proof.
  revert i. induction photos as [| photo rest IH]; intro i; [constructor |].
  cbn [uploadFrom].
  destruct (photoService_upload atob storage_upload getPublicUrl benchId userId
              (base64 photo) (mimeType photo) (Nat.eqb (S i) 0) (clock (S i)))
    as [message | u] eqn:E; [apply IH |].
  constructor; [| apply IH].
  apply photoService_upload_returns in E. subst u. reflexivity.
Qed.

Lemma uploadFrom_length benchId userId clock i photos :
  (List.length (uploadFrom atob storage_upload getPublicUrl benchId userId clock i photos)
   <= List.length photos)%nat.
Proof.
  revert i. induction photos as [| photo rest IH]; intro i; [simpl; lia |].
  cbn [uploadFrom].
  destruct (photoService_upload atob storage_upload getPublicUrl benchId userId
              (base64 photo) (mimeType photo) (Nat.eqb i 0) (clock i));
    specialize (IH (S i)); simpl; lia.
Qed.

Lemma uploadFrom_bench benchId userId clock i photos :
  Forall (fun u => pi_bench_id (up_row u) = benchId)
    (uploadFrom atob storage_upload getPublicUrl benchId userId clock i photos).
Proof.
  revert i. induction photos as [| photo rest IH]; intro i; [constructor |].
  cbn [uploadFrom].
  destruct (photoService_upload atob storage_upload getPublicUrl benchId userId
              (base64 photo) (mimeType photo) (Nat.eqb i 0) (clock i))
    as [message | u] eqn:E; [apply IH |].
  constructor; [| apply IH].
  apply photoService_upload_returns in E. subst u. reflexivity.
Qed.

(** [uploadMultiple] returns at most one row per photo, all of the bench,
    in the order of the photos.  Only the first photo is uploaded as
    primary: if its upload succeeds, its row comes first and is the one
    primary row; if its upload fails, the photos after it are still
    uploaded and none of the rows is primary. *)
Theorem upload_multiple_primary :
  forall benchId userId clock photos,
    let uploadedPhotos :=
      photoService_uploadMultiple atob storage_upload getPublicUrl benchId userId
        clock photos in
    (List.length uploadedPhotos <= List.length photos)%nat /\
    Forall (fun u => pi_bench_id (up_row u) = benchId) uploadedPhotos /\
    match photos with
    | [] => uploadedPhotos = []
    | first :: rest =>
        let others :=
          uploadFrom atob storage_upload getPublicUrl benchId userId clock 1 rest in
        Forall (fun u => pi_is_primary (up_row u) = false) others /\
        match photoService_upload atob storage_upload getPublicUrl benchId userId
                (base64 first) (mimeType first) true (clock 0%nat) with
        | Returns u => uploadedPhotos = u :: others /\ pi_is_primary (up_row u) = true
        | Throws _ => uploadedPhotos = others
        end
    end.
Proof.
  intros benchId userId clock photos uploadedPhotos. subst uploadedPhotos.
  unfold photoService_uploadMultiple.
  split; [apply uploadFrom_length |]. split; [apply uploadFrom_bench |].
  destruct photos as [| first rest]; [reflexivity |].
  cbv zeta. split; [apply uploadFrom_later |].
  cbn [uploadFrom Nat.eqb].
  destruct (photoService_upload atob storage_upload getPublicUrl benchId userId
              (base64 first) (mimeType first) true (clock 0%nat))
    as [message | u] eqn:E; [reflexivity |].
  split; [reflexivity |].
  apply photoService_upload_returns in E. subst u. reflexivity.
Qed.

End StorageFacts.

Lemma filter_map_comm {A B : Type} (f : A -> B) (p : B -> bool) (l : list A) :
  filter p (map f l) = map f (filter (fun x => p (f x)) l).
Proof.
  induction l as [| x l IH]; simpl; [reflexivity |].
  destruct (p (f x)); simpl; rewrite IH; reflexivity.
Qed.

Lemma filter_filter_andb {A : Type} (p q : A -> bool) (l : list A) :
  filter p (filter q l) = filter (fun x => q x && p x) l.
Proof.
  induction l as [| x l IH]; simpl; [reflexivity |].
  destruct (q x); simpl; [destruct (p x) |]; rewrite IH; reflexivity.
Qed.

(** With ids as the key, a request by id finds one row or none. *)
Lemma filter_hasId photoId (l : list benchPhoto) :
  NoDup (map ph_id l) ->
  (filter (hasId photoId) l = [] /\ forall p, In p l -> ph_id p <> photoId) \/
  (exists p, filter (hasId photoId) l = [p] /\ In p l /\ ph_id p = photoId).
Proof.
  induction l as [| x l IH]; intro Hnd.
  - left. split; [reflexivity | intros p []].
  - inversion Hnd as [| y ys Hnotin Hnd' E]. subst y ys.
    cbn [filter]. destruct (hasId photoId x) eqn:Ex; unfold hasId in Ex;
      [apply String.eqb_eq in Ex | apply String.eqb_neq in Ex].
    + right. exists x. split; [| split; [left; reflexivity | exact Ex]].
      f_equal. apply filter_none. intros p Hp. unfold hasId.
      apply String.eqb_neq. intro Ep. apply Hnotin. rewrite Ex, <- Ep.
      apply in_map. exact Hp.
    + destruct (IH Hnd') as [[E0 Hnone] | [p [E1 [Hp Eid]]]].
      * left. split; [exact E0 |]. intros p [<- | Hp]; [exact Ex | apply Hnone; exact Hp].
      * right. exists p. split; [exact E1 |]. split; [right; exact Hp | exact Eid].
Qed.

Lemma setPrimary_table bench_photos photoId benchId :
  fst (photoService_setPrimary bench_photos photoId benchId) =
  map (fun photo =>
         mkBenchPhoto (ph_id photo) (ph_bench_id photo) (ph_photo_url photo)
           (if hasId photoId photo then true
            else if String.eqb (ph_bench_id photo) benchId then false
            else ph_is_primary photo))
    bench_photos.
Proof.
  unfold photoService_setPrimary.
  match goal with
  | |- fst (match ?s with _ => _ end) = _ => destruct s
  end; cbn [fst]; unfold update_is_primary; rewrite map_map; apply map_ext;
    intros [i0 b0 u0 pr0]; unfold hasId;
    cbn [ph_id ph_bench_id ph_photo_url ph_is_primary];
    destruct (String.eqb b0 benchId); cbn [ph_id ph_bench_id ph_photo_url ph_is_primary];
    destruct (String.eqb i0 photoId); reflexivity.
Qed.

Lemma setPrimary_result bench_photos photoId benchId :
  snd (photoService_setPrimary bench_photos photoId benchId) =
  match single (filter (hasId photoId)
                  (fst (photoService_setPrimary bench_photos photoId benchId))) with
  | Some data => Returns data
  | None => Throws "PGRST116"
  end.
Proof.
  unfold photoService_setPrimary.
  match goal with
  | |- snd (match ?s with _ => _ end) = _ => destruct s eqn:E
  end; cbn [fst snd]; rewrite E; reflexivity.
Qed.

(** With ids as the key of [bench_photos]: [setPrimary] leaves alone every
    photo of another bench but the one named.  If a photo has the id, it is
    returned as primary, and the bench then has exactly that primary photo
    when the photo is one of its own, and none when it belongs to another
    bench.  If no photo has the id, the call throws, and the bench is left
    without a primary photo. *)
Theorem set_primary :
  forall bench_photos photoId benchId,
    NoDup (map ph_id bench_photos) ->
    let table := fst (photoService_setPrimary bench_photos photoId benchId) in
    (forall photo,
       In photo bench_photos -> ph_id photo <> photoId ->
       ph_bench_id photo <> benchId -> In photo table) /\
    match snd (photoService_setPrimary bench_photos photoId benchId) with
    | Returns data =>
        exists photo,
          In photo bench_photos /\ ph_id photo = photoId /\
          data = mkBenchPhoto photoId (ph_bench_id photo) (ph_photo_url photo) true /\
          In data table /\
          primaryPhotos table benchId =
            (if String.eqb (ph_bench_id photo) benchId then [data] else [])
    | Throws _ =>
        (forall photo, In photo bench_photos -> ph_id photo <> photoId) /\
        primaryPhotos table benchId = []
    end.
Proof.
  intros bench_photos photoId benchId Hnd table. subst table.
  rewrite setPrimary_result, setPrimary_table.
  set (f := fun photo =>
              mkBenchPhoto (ph_id photo) (ph_bench_id photo) (ph_photo_url photo)
                (if hasId photoId photo then true
                 else if String.eqb (ph_bench_id photo) benchId then false
                 else ph_is_primary photo)).
  assert (filter (hasId photoId) (map f bench_photos) =
          map f (filter (hasId photoId) bench_photos)) as Hsel.
  { rewrite filter_map_comm. reflexivity. }
  assert (primaryPhotos (map f bench_photos) benchId =
          map f (filter (fun p => String.eqb (ph_bench_id p) benchId)
                   (filter (hasId photoId) bench_photos))) as Hprim.
  { unfold primaryPhotos. rewrite filter_map_comm, filter_filter_andb. f_equal.
    apply filter_ext. intros [i0 b0 u0 pr0]. unfold f, hasId.
    cbn [ph_id ph_bench_id ph_photo_url ph_is_primary].
    destruct (String.eqb i0 photoId), (String.eqb b0 benchId); reflexivity. }
  split.
  - intros [i b u pr] Hin Hid Hbench. apply in_map_iff.
    exists (mkBenchPhoto i b u pr). split; [| exact Hin].
    unfold f, hasId. cbn [ph_id ph_bench_id ph_photo_url ph_is_primary] in *.
    apply String.eqb_neq in Hid, Hbench. rewrite Hid, Hbench. reflexivity.
  - rewrite Hsel, Hprim.
    destruct (filter_hasId photoId bench_photos Hnd) as [[E0 Hnone] | [p [E1 [Hp Eid]]]].
    + rewrite E0. cbn [map single filter]. split; [exact Hnone | reflexivity].
    + rewrite E1. cbn [map single filter].
      exists p. split; [exact Hp |]. split; [exact Eid |].
      assert (f p = mkBenchPhoto photoId (ph_bench_id p) (ph_photo_url p) true) as Ef.
      { unfold f, hasId. rewrite Eid, String.eqb_refl. reflexivity. }
      split; [exact Ef |]. split.
      * apply in_map. exact Hp.
      * destruct (String.eqb (ph_bench_id p) benchId); reflexivity.
Qed.

Lemma set_primary_witness :
  NoDup (map ph_id [mkBenchPhoto "p1" "b1" "u1" true; mkBenchPhoto "p2" "b1" "u2" false]) /\
  primaryPhotos
    (fst (photoService_setPrimary
            [mkBenchPhoto "p1" "b1" "u1" true; mkBenchPhoto "p2" "b1" "u2" false]
            "p9" "b1")) "b1" = [].
Proof.
  assert (NoDup (map ph_id
            [mkBenchPhoto "p1" "b1" "u1" true; mkBenchPhoto "p2" "b1" "u2" false]))
    as Hnd.
  { repeat constructor; simpl; [intros [H | []]; discriminate | tauto]. }
  split; [exact Hnd |].
  pose proof (set_primary
                [mkBenchPhoto "p1" "b1" "u1" true; mkBenchPhoto "p2" "b1" "u2" false]
                "p9" "b1" Hnd) as H.
  cbv zeta in H. destruct H as [_ H].
  change (snd (photoService_setPrimary
                 [mkBenchPhoto "p1" "b1" "u1" true; mkBenchPhoto "p2" "b1" "u2" false]
                 "p9" "b1")) with (@Throws benchPhoto "PGRST116") in H.
  exact (proj2 H).
Defined.
